(** * Market-structure detection (swings, structure, BOS, CHoCH)

    A shallow embedding of [src/analysis/market_structure/] and the
    properties its specification states about it.

    Conventions of the embedding:
    - a Python [int] is a [Z]; a [datetime] is a [Z] (a point on the UTC
      time line, only ever compared); a [Decimal] price is a [Z] counting
      the smallest price increment (prices are only ever compared, never
      computed with, so any order-preserving scale is faithful);
    - a Python exception is the [Raise] branch of [result];
    - an object with mutable attributes is a record threaded through its
      methods ([SwingDetector]); a local [set()] is a [gset Z]. *)

From Stdlib Require Import ZArith Lia.
From stdpp Require Import base option list sorting gmap.

Local Open Scope Z_scope.

(** ** Exceptions *)

Inductive PyError : Type :=
  | ValueError_lookback (got : Z)      (* "Lookback must be >= 1, got .." *)
  | ValueError_price (got : Z)         (* "Swing price must be positive, got .." *)
  | ValueError_bar_index (got : Z)     (* "Bar index must be >= 0, got .." *)
  | ValueError_time_order (i : Z)      (* "Bars must be time-ordered. Bar i .. >= Bar i+1 .." *)
  | IndexError.                        (* list index out of range *)

Inductive result (A : Type) : Type :=
  | Ok (a : A)
  | Raise (e : PyError).
Arguments Ok {A} a.
Arguments Raise {A} e.

#[global] Instance result_ret : MRet result := fun A a => Ok a.
#[global] Instance result_bind : MBind result := fun A B f r =>
  match r with
  | Ok a => f a
  | Raise e => Raise e
  end.

Definition is_sequencing_error (e : PyError) : bool :=
  match e with ValueError_time_order _ => true | _ => false end.

Definition is_invalid_parameter (e : PyError) : bool :=
  match e with ValueError_lookback _ => true | _ => false end.

(** ** Python sequences *)

(** [l[i]]: a negative index counts from the end, anything outside
    [-len, len) raises [IndexError]. *)
Definition py_index {A} (l : list A) (i : Z) : result A :=
  let n := Z.of_nat (length l) in
  let j := if i <? 0 then i + n else i in
  if (0 <=? j) && (j <? n)
  then match l !! Z.to_nat j with
       | Some x => Ok x
       | None => Raise IndexError
       end
  else Raise IndexError.

(** [range(a, b)] *)
Definition py_range (a b : Z) : list Z :=
  (fun k : nat => a + Z.of_nat k) <$> seq 0 (Z.to_nat (b - a)).

(** ** Data model *)

(** [src/data/models.py], [MarketBar]: the fields the market-structure
    package reads. *)
Record MarketBar : Type := mkBar {
  timestamp_utc : Z;
  open : Z;
  high : Z;
  low : Z;
  close : Z
}.

(** The invariants [MarketBar.__post_init__] enforces on the prices, so
    that every bar that exists satisfies them. *)
Definition bar_invariant (b : MarketBar) : Prop :=
  low b <= open b <= high b /\ low b <= close b <= high b /\
  0 < open b /\ 0 < high b /\ 0 < low b /\ 0 < close b.

#[global] Instance bar_invariant_dec b : Decision (bar_invariant b).
Proof. unfold bar_invariant. apply _. Defined.

#[global] Instance MarketBar_eq_dec : EqDecision MarketBar.
Proof. solve_decision. Defined.

Inductive SwingType : Type := HIGH | LOW.

#[global] Instance SwingType_eq_dec : EqDecision SwingType.
Proof. solve_decision. Defined.

Record SwingPoint : Type := mkSwing {
  timestamp : Z;
  price : Z;
  swing_type : SwingType;
  bar_index : Z;
  sp_lookback : Z;
  strength : Z
}.

#[global] Instance SwingPoint_eq_dec : EqDecision SwingPoint.
Proof. solve_decision. Defined.

(** [SwingPoint(...)]: the dataclass constructor followed by
    [__post_init__]. *)
Definition SwingPoint_init (timestamp price : Z) (swing_type : SwingType)
    (bar_index lookback strength : Z) : result SwingPoint :=
  if price <=? 0 then Raise (ValueError_price price)
  else if lookback <? 1 then Raise (ValueError_lookback lookback)
  else if bar_index <? 0 then Raise (ValueError_bar_index bar_index)
  else Ok (mkSwing timestamp price swing_type bar_index lookback strength).

(** ** swings.py: [SwingDetector] *)

Record SwingDetector : Type := mkSwingDetector {
  lookback : Z;
  swings_detected : Z;
  highs_detected : Z;
  lows_detected : Z
}.

(** [SwingDetector.__init__] *)
Definition SwingDetector_init (lookback : Z) : result SwingDetector :=
  if lookback <? 1 then Raise (ValueError_lookback lookback)
  else Ok (mkSwingDetector lookback 0 0 0).

(** A [for i in idxs: if violates(bars[i]): return False] loop, then
    fall through with [True]. *)
Fixpoint window_respects (violates : MarketBar -> bool)
    (bars : list MarketBar) (idxs : list Z) : result bool :=
  match idxs with
  | [] => Ok true
  | i :: rest =>
      b ← py_index bars i;
      if violates b then Ok false else window_respects violates bars rest
  end.

Definition _is_swing_high (self : SwingDetector) (bars : list MarketBar)
    (index : Z) : result bool :=
  center ← py_index bars index;
  let center_high := high center in
  left ← window_respects (fun b => center_high <=? high b) bars
           (py_range (index - lookback self) index);
  if negb left then Ok false
  else window_respects (fun b => center_high <? high b) bars
         (py_range (index + 1) (index + lookback self + 1)).

Definition _is_swing_low (self : SwingDetector) (bars : list MarketBar)
    (index : Z) : result bool :=
  center ← py_index bars index;
  let center_low := low center in
  left ← window_respects (fun b => low b <=? center_low) bars
           (py_range (index - lookback self) index);
  if negb left then Ok false
  else window_respects (fun b => low b <? center_low) bars
         (py_range (index + 1) (index + lookback self + 1)).

(** The counting loop of [_calculate_strength]:
    [for i in idxs: if i != index and respects(bars[i]): strength += 1]. *)
Fixpoint count_respecting (respects : MarketBar -> bool)
    (bars : list MarketBar) (index : Z) (idxs : list Z) (strength : Z)
    : result Z :=
  match idxs with
  | [] => Ok strength
  | i :: rest =>
      if bool_decide (i ≠ index)
      then b ← py_index bars i;
           count_respecting respects bars index rest
             (if respects b then strength + 1 else strength)
      else count_respecting respects bars index rest strength
  end.

Definition _calculate_strength (self : SwingDetector) (bars : list MarketBar)
    (index : Z) (swing_type : SwingType) : result Z :=
  center ← py_index bars index;
  let swing_price :=
    match swing_type with HIGH => high center | LOW => low center end in
  let window := py_range (index - lookback self) (index + lookback self + 1) in
  match swing_type with
  | HIGH => count_respecting (fun b => high b <? swing_price) bars index window 0
  | LOW => count_respecting (fun b => swing_price <? low b) bars index window 0
  end.

(** [_validate_bar_sequence]; [i] is the index of the head of [bars] in
    the full sequence. *)
Fixpoint validate_from (i : Z) (bars : list MarketBar) : result unit :=
  match bars with
  | b :: (b' :: _) as rest =>
      if timestamp_utc b' <=? timestamp_utc b
      then Raise (ValueError_time_order i)
      else validate_from (i + 1) rest
  | _ => Ok tt
  end.

Definition _validate_bar_sequence (bars : list MarketBar) : result unit :=
  validate_from 0 bars.

(** [swings.sort(key=lambda s: s.timestamp)]: Python's sort is stable, and
    a stable sort has one possible result; insertion from the right gives
    it. *)
Fixpoint insert_by_timestamp (s : SwingPoint) (l : list SwingPoint)
    : list SwingPoint :=
  match l with
  | [] => [s]
  | x :: rest =>
      if timestamp s <=? timestamp x then s :: l
      else x :: insert_by_timestamp s rest
  end.

Definition sort_by_timestamp (l : list SwingPoint) : list SwingPoint :=
  foldr insert_by_timestamp [] l.

(** Methods that update the detector's attributes: the detector goes in
    and comes out, also when the method raises. *)
Definition Method (A : Type) : Type := SwingDetector -> SwingDetector * result A.

#[global] Instance Method_ret : MRet Method := fun A a self => (self, Ok a).
#[global] Instance Method_bind : MBind Method := fun A B f m self =>
  match m self with
  | (self', Ok a) => f a self'
  | (self', Raise e) => (self', Raise e)
  end.

Definition lift {A} (r : result A) : Method A := fun self => (self, r).
Definition this : Method SwingDetector := fun self => (self, Ok self).

(** [self.swings_detected += 1; self.highs_detected += 1] (or lows). *)
Definition count_swing (t : SwingType) : Method unit := fun self =>
  (match t with
   | HIGH => mkSwingDetector (lookback self) (swings_detected self + 1)
               (highs_detected self + 1) (lows_detected self)
   | LOW => mkSwingDetector (lookback self) (swings_detected self + 1)
              (highs_detected self) (lows_detected self + 1)
   end, Ok tt).

(** One of the two [if self._is_swing_..(bars, i): ...] blocks of the loop
    body. *)
Definition check_swing (t : SwingType) (bars : list MarketBar) (i : Z)
    (swings : list SwingPoint) : Method (list SwingPoint) :=
  self ← this;
  found ← lift (match t with
                | HIGH => _is_swing_high self bars i
                | LOW => _is_swing_low self bars i
                end);
  if found : bool then
    b ← lift (py_index bars i);
    str ← lift (_calculate_strength self bars i t);
    swing ← lift (SwingPoint_init (timestamp_utc b)
                    (match t with HIGH => high b | LOW => low b end)
                    t i (lookback self) str);
    _ ← count_swing t;
    mret (swings ++ [swing])
  else mret swings.

Fixpoint detect_swings_loop (bars : list MarketBar) (idxs : list Z)
    (swings : list SwingPoint) : Method (list SwingPoint) :=
  match idxs with
  | [] => mret swings
  | i :: rest =>
      swings ← check_swing HIGH bars i swings;
      swings ← check_swing LOW bars i swings;
      detect_swings_loop bars rest swings
  end.

Definition detect_swings (bars : list MarketBar) : Method (list SwingPoint) :=
  match bars with
  | [] => mret []
  | _ =>
      _ ← lift (_validate_bar_sequence bars);
      self ← this;
      let min_bars := lookback self * 2 + 1 in
      if Z.of_nat (length bars) <? min_bars then mret []
      else
        swings ← detect_swings_loop bars
                   (py_range (lookback self)
                      (Z.of_nat (length bars) - lookback self)) [];
        mret (sort_by_timestamp swings)
  end.

(** [get_statistics]: the dictionary's values, in the order
    [lookback], [total_swings], [highs], [lows]. *)
Definition get_statistics (self : SwingDetector) : Z * Z * Z * Z :=
  (lookback self, swings_detected self, highs_detected self, lows_detected self).

Definition reset_statistics (self : SwingDetector) : SwingDetector :=
  mkSwingDetector (lookback self) 0 0 0.

(** ** structure.py: [StructureAnalyzer] *)

Module TrendState.
Inductive t : Type := BULLISH | BEARISH | RANGING | UNKNOWN.
#[global] Instance eq_dec : EqDecision t.
Proof. solve_decision. Defined.
End TrendState.

Record StructureState : Type := mkStructureState {
  trend : TrendState.t;
  last_swing_high : option SwingPoint;
  last_swing_low : option SwingPoint;
  higher_highs : Z;
  lower_lows : Z;
  state_timestamp : option Z
}.

Record StructureAnalyzer : Type := mkStructureAnalyzer {
  min_swings_for_trend : Z
}.

(** [StructureAnalyzer.__init__] stores its argument and nothing else. *)
Definition StructureAnalyzer_init (min_swings_for_trend : Z)
    : result StructureAnalyzer :=
  Ok (mkStructureAnalyzer min_swings_for_trend).

(** [l[-2], l[-1]] under the guard [len(l) >= 2]. *)
Definition last_two {A} (l : list A) : option (A * A) :=
  match reverse l with
  | y :: x :: _ => Some (x, y)
  | _ => None
  end.

(** The streak loops of [analyze_structure]:
    [for i in range(1, len(l)): if better(l[i], l[i-1]): count += 1
     else: count = 0]; [prev] is [l[i-1]]. *)
Fixpoint streak (better : Z -> Z -> bool) (prev : SwingPoint)
    (rest : list SwingPoint) (count : Z) : Z :=
  match rest with
  | [] => count
  | s :: rest' =>
      streak better s rest'
        (if better (price s) (price prev) then count + 1 else 0)
  end.

Definition streak_count (better : Z -> Z -> bool) (l : list SwingPoint) : Z :=
  match l with
  | [] => 0
  | s :: rest => streak better s rest 0
  end.

Definition only (t : SwingType) (swings : list SwingPoint) : list SwingPoint :=
  filter (fun s => swing_type s = t) swings.

Definition _determine_trend (self : StructureAnalyzer)
    (highs lows : list SwingPoint) (higher_highs lower_lows : Z)
    : TrendState.t :=
  if (Z.of_nat (length highs) <? min_swings_for_trend self)
     || (Z.of_nat (length lows) <? min_swings_for_trend self)
  then TrendState.UNKNOWN
  else if (min_swings_for_trend self - 1 <=? higher_highs)
          && match last_two lows with
             | Some (l2, l1) => price l2 <? price l1
             | None => false
             end
  then TrendState.BULLISH
  else if (min_swings_for_trend self - 1 <=? lower_lows)
          && match last_two highs with
             | Some (h2, h1) => price h1 <? price h2
             | None => false
             end
  then TrendState.BEARISH
  else TrendState.RANGING.

Definition analyze_structure (self : StructureAnalyzer)
    (swings : list SwingPoint) : StructureState :=
  match swings with
  | [] => mkStructureState TrendState.UNKNOWN None None 0 0 None
  | _ =>
      let highs := only HIGH swings in
      let lows := only LOW swings in
      let higher_highs_count := streak_count (fun p q => q <? p) highs in
      let lower_lows_count := streak_count (fun p q => p <? q) lows in
      mkStructureState
        (_determine_trend self highs lows higher_highs_count lower_lows_count)
        (last highs) (last lows) higher_highs_count lower_lows_count
        (timestamp <$> last swings)
  end.

(** ** bos.py: [BOSDetector] *)

Module BOSDirection.
Inductive t : Type := BULLISH | BEARISH.
#[global] Instance eq_dec : EqDecision t.
Proof. solve_decision. Defined.
End BOSDirection.

Module BOSEvent.
Record t : Type := mk {
  direction : BOSDirection.t;
  broken_swing : SwingPoint;
  break_price : Z;
  break_bar : MarketBar;
  timestamp : Z
}.
#[global] Instance eq_dec : EqDecision t.
Proof. solve_decision. Defined.
End BOSEvent.

(** [[s for s in swings if s.bar_index < i and s.bar_index not in
    broken_swings]] *)
Definition relevant_swings (swings : list SwingPoint) (broken_swings : gset Z)
    (i : Z) : list SwingPoint :=
  filter (fun s => bar_index s < i /\ bar_index s ∉ broken_swings) swings.

Module BOSDetector.

Record t : Type := mk { use_body : bool }.

(** The loop variables [bos_events] and [broken_swings]. *)
Definition state : Type := list BOSEvent.t * gset Z.

(** The [if recent_highs: ...] block. *)
Definition check_bullish (self : t) (relevant : list SwingPoint)
    (bar : MarketBar) (st : state) : state :=
  match last (only HIGH relevant) with
  | Some last_high =>
      let break_price := if use_body self then close bar else high bar in
      if price last_high <? break_price
      then (st.1 ++ [BOSEvent.mk BOSDirection.BULLISH last_high break_price
                       bar (timestamp_utc bar)],
            st.2 ∪ {[bar_index last_high]})
      else st
  | None => st
  end.

(** The [if recent_lows: ...] block. *)
Definition check_bearish (self : t) (relevant : list SwingPoint)
    (bar : MarketBar) (st : state) : state :=
  match last (only LOW relevant) with
  | Some last_low =>
      let break_price := if use_body self then close bar else low bar in
      if break_price <? price last_low
      then (st.1 ++ [BOSEvent.mk BOSDirection.BEARISH last_low break_price
                       bar (timestamp_utc bar)],
            st.2 ∪ {[bar_index last_low]})
      else st
  | None => st
  end.

(** The body of [for i, bar in enumerate(bars)]; [relevant_swings] is
    built once, before either direction is looked at. *)
Definition scan_bar (self : t) (swings : list SwingPoint) (i : Z)
    (bar : MarketBar) (st : state) : state :=
  let relevant := relevant_swings swings st.2 i in
  match relevant with
  | [] => st
  | _ => check_bearish self relevant bar (check_bullish self relevant bar st)
  end.

Fixpoint scan (self : t) (swings : list SwingPoint) (i : Z)
    (bars : list MarketBar) (st : state) : state :=
  match bars with
  | [] => st
  | bar :: rest => scan self swings (i + 1) rest (scan_bar self swings i bar st)
  end.

Definition detect_bos (self : t) (bars : list MarketBar)
    (swings : list SwingPoint) : result (list BOSEvent.t) :=
  match swings with
  | [] => Ok []
  | _ =>
      if Z.of_nat (length bars) <? 2 then Ok []
      else Ok (scan self swings 0 bars ([], ∅)).1
  end.

End BOSDetector.

(** ** choch.py: [CHoCHDetector] *)

Inductive CHoCHType : Type := BULLISH_TO_BEARISH | BEARISH_TO_BULLISH.

#[global] Instance CHoCHType_eq_dec : EqDecision CHoCHType.
Proof. solve_decision. Defined.

Module CHoCHEvent.
Record t : Type := mk {
  choch_type : CHoCHType;
  broken_swing : SwingPoint;
  break_price : Z;
  break_bar : MarketBar;
  prior_trend : TrendState.t;
  timestamp : Z
}.
#[global] Instance eq_dec : EqDecision t.
Proof. solve_decision. Defined.
End CHoCHEvent.

Module CHoCHDetector.

Record t : Type := mk { use_body : bool }.

Definition state : Type := list CHoCHEvent.t * gset Z.

Definition scan_bar (self : t) (swings : list SwingPoint)
    (trend_state : TrendState.t) (i : Z) (bar : MarketBar) (st : state)
    : state :=
  let relevant := relevant_swings swings st.2 i in
  match relevant with
  | [] => st
  | _ =>
      match trend_state with
      | TrendState.BULLISH =>
          match last (only LOW relevant) with
          | Some last_low =>
              let break_price := if use_body self then close bar else low bar in
              if break_price <? price last_low
              then (st.1 ++ [CHoCHEvent.mk BULLISH_TO_BEARISH last_low
                               break_price bar trend_state (timestamp_utc bar)],
                    st.2 ∪ {[bar_index last_low]})
              else st
          | None => st
          end
      | TrendState.BEARISH =>
          match last (only HIGH relevant) with
          | Some last_high =>
              let break_price := if use_body self then close bar else high bar in
              if price last_high <? break_price
              then (st.1 ++ [CHoCHEvent.mk BEARISH_TO_BULLISH last_high
                               break_price bar trend_state (timestamp_utc bar)],
                    st.2 ∪ {[bar_index last_high]})
              else st
          | None => st
          end
      | _ => st
      end
  end.

Fixpoint scan (self : t) (swings : list SwingPoint)
    (trend_state : TrendState.t) (i : Z) (bars : list MarketBar) (st : state)
    : state :=
  match bars with
  | [] => st
  | bar :: rest =>
      scan self swings trend_state (i + 1) rest
        (scan_bar self swings trend_state i bar st)
  end.

Definition detect_choch (self : t) (bars : list MarketBar)
    (swings : list SwingPoint) (trend_state : TrendState.t)
    : result (list CHoCHEvent.t) :=
  match trend_state with
  | TrendState.RANGING | TrendState.UNKNOWN => Ok []
  | _ => Ok (scan self swings trend_state 0 bars ([], ∅)).1
  end.

End CHoCHDetector.

(** * Vocabulary of the specification *)

(** ** Bars and windows *)

#[global] Instance MarketBar_inhabited : Inhabited MarketBar :=
  populate (mkBar 0 0 0 0 0).

(** [bars[j]] for an index known to be in range. *)
Definition bar_at (bars : list MarketBar) (j : Z) : MarketBar :=
  bars !!! Z.to_nat j.

Definition in_bars (bars : list MarketBar) (j : Z) : Prop :=
  0 <= j < Z.of_nat (length bars).

Definition bar_before (a b : MarketBar) : Prop :=
  timestamp_utc a < timestamp_utc b.

#[global] Instance bar_before_dec a b : Decision (bar_before a b).
Proof. unfold bar_before. apply _. Defined.

#[global] Instance bar_before_trans : Transitive bar_before.
Proof. unfold bar_before. intros a b c. lia. Qed.

(** Strictly time-ordered: [bars[i].timestamp_utc < bars[i+1].timestamp_utc]
    for every adjacent pair. *)
Definition time_ordered (bars : list MarketBar) : Prop := Sorted bar_before bars.

#[global] Instance time_ordered_dec bars : Decision (time_ordered bars).
Proof. unfold time_ordered. apply _. Defined.

Definition not_after (a b : SwingPoint) : Prop := timestamp a <= timestamp b.

Definition formed_no_later (a b : SwingPoint) : Prop := bar_index a <= bar_index b.

(** ** Swings *)

Definition extreme (t : SwingType) (b : MarketBar) : Z :=
  match t with HIGH => high b | LOW => low b end.

(** [x] is strictly worse than the swing price [c]: a strictly lower high,
    a strictly higher low. *)
Definition worse (t : SwingType) (x c : Z) : Prop :=
  match t with HIGH => x < c | LOW => c < x end.

(** [x] does not beat [c]: ties allowed. *)
Definition not_better (t : SwingType) (x c : Z) : Prop :=
  match t with HIGH => x <= c | LOW => c <= x end.

#[global] Instance worse_dec t x c : Decision (worse t x c).
Proof. destruct t; simpl; apply _. Defined.

#[global] Instance not_better_dec t x c : Decision (not_better t x c).
Proof. destruct t; simpl; apply _. Defined.

(** The two windows of bar [i], as a test. *)
Definition is_swing (t : SwingType) (lb : Z) (bars : list MarketBar) (i : Z)
    : bool :=
  forallb (fun j => bool_decide
             (worse t (extreme t (bar_at bars j)) (extreme t (bar_at bars i))))
    (py_range (i - lb) i)
  && forallb (fun j => bool_decide
                (not_better t (extreme t (bar_at bars j)) (extreme t (bar_at bars i))))
       (py_range (i + 1) (i + lb + 1)).

Definition strength_of (t : SwingType) (lb : Z) (bars : list MarketBar) (i : Z)
    : Z :=
  Z.of_nat (length
    (filter (fun j => j ≠ i /\
               worse t (extreme t (bar_at bars j)) (extreme t (bar_at bars i)))
       (py_range (i - lb) (i + lb + 1)))).

Definition swing_of (t : SwingType) (lb : Z) (bars : list MarketBar) (i : Z)
    : SwingPoint :=
  mkSwing (timestamp_utc (bar_at bars i)) (extreme t (bar_at bars i)) t i lb
    (strength_of t lb bars i).

Definition found_at (t : SwingType) (lb : Z) (bars : list MarketBar) (i : Z)
    : list SwingPoint :=
  if is_swing t lb bars i then [swing_of t lb bars i] else [].

Definition swings_at (lb : Z) (bars : list MarketBar) (i : Z) : list SwingPoint :=
  (if is_swing HIGH lb bars i then [swing_of HIGH lb bars i] else [])
  ++ (if is_swing LOW lb bars i then [swing_of LOW lb bars i] else []).

(** Everything [detect_swings] emits for [bars] with lookback [lb]. *)
Definition expected_swings (lb : Z) (bars : list MarketBar) : list SwingPoint :=
  py_range lb (Z.of_nat (length bars) - lb) ≫= swings_at lb bars.

(** The counters after [found] more swings were counted. *)
Definition tally (found : list SwingPoint) (self : SwingDetector) : SwingDetector :=
  mkSwingDetector (lookback self)
    (swings_detected self + Z.of_nat (length found))
    (highs_detected self + Z.of_nat (length (only HIGH found)))
    (lows_detected self + Z.of_nat (length (only LOW found))).

(** The window conditions of the specification, on the bars themselves. *)
Definition swing_high_condition (lb : Z) (bars : list MarketBar) (i : Z) : Prop :=
  lb <= i < Z.of_nat (length bars) - lb /\
  exists c, bars !! Z.to_nat i = Some c /\
    (forall (j : Z) b, i - lb <= j <= i - 1 -> bars !! Z.to_nat j = Some b ->
       high b < high c) /\
    (forall (j : Z) b, i + 1 <= j <= i + lb -> bars !! Z.to_nat j = Some b ->
       high b <= high c).

Definition swing_low_condition (lb : Z) (bars : list MarketBar) (i : Z) : Prop :=
  lb <= i < Z.of_nat (length bars) - lb /\
  exists c, bars !! Z.to_nat i = Some c /\
    (forall (j : Z) b, i - lb <= j <= i - 1 -> bars !! Z.to_nat j = Some b ->
       low c < low b) /\
    (forall (j : Z) b, i + 1 <= j <= i + lb -> bars !! Z.to_nat j = Some b ->
       low c <= low b).

(** The [2 * lb] bars around bar [i]: [lb] before it and [lb] after it. *)
Definition neighbours (lb : Z) (bars : list MarketBar) (i : Z) : list MarketBar :=
  take (Z.to_nat lb) (drop (Z.to_nat (i - lb)) bars)
  ++ take (Z.to_nat lb) (drop (Z.to_nat (i + 1)) bars).

(** Strictly lower highs count for a HIGH swing, strictly higher lows for a
    LOW swing. *)
Definition respects_swing (s : SwingPoint) (b : MarketBar) : Prop :=
  match swing_type s with
  | HIGH => high b < price s
  | LOW => price s < low b
  end.

#[global] Instance respects_swing_dec s b : Decision (respects_swing s b).
Proof. unfold respects_swing. destruct (swing_type s); apply _. Defined.

(** [get_statistics] of a detector that counted exactly [swings]. *)
Definition statistics_of (lb : Z) (swings : list SwingPoint) : Z * Z * Z * Z :=
  (lb, Z.of_nat (length swings), Z.of_nat (length (only HIGH swings)),
   Z.of_nat (length (only LOW swings))).

(** Statistics that are reset per call: after a call on [bars1] and a call
    on [bars2] they describe the second call only. *)
Definition statistics_call_scoped (d0 : SwingDetector)
    (bars1 bars2 : list MarketBar) : Prop :=
  forall d1 r1 d2 swings2,
    detect_swings bars1 d0 = (d1, r1) ->
    detect_swings bars2 d1 = (d2, Ok swings2) ->
    get_statistics d2 = statistics_of (lookback d0) swings2.

(** An entry point that re-validates the time order of its bars. *)
Definition rejects_unordered_bars {A} (call : list MarketBar -> result A) : Prop :=
  forall bars, bars ≠ [] -> ¬ time_ordered bars ->
    exists e, call bars = Raise e /\ is_sequencing_error e = true.

(** A constructor that refuses a parameter below one. *)
Definition rejects_below_one {A} (init : Z -> result A) : Prop :=
  forall n, n < 1 ->
    exists e, init n = Raise e /\ is_invalid_parameter e = true.

(** ** Trend *)

(** The last two swings of [l] exist and the later one is strictly higher
    (resp. lower) than the one before it. *)
Definition last_two_rising (l : list SwingPoint) : Prop :=
  exists pre a b, l = pre ++ [a; b] /\ price a < price b.

Definition last_two_falling (l : list SwingPoint) : Prop :=
  exists pre a b, l = pre ++ [a; b] /\ price b < price a.

(** ** The BOS scan *)

Definition bos_broken_index (e : BOSEvent.t) : Z :=
  bar_index (BOSEvent.broken_swing e).

(** The events one bar adds, given the broken set at its start. *)
Definition bos_emitted (self : BOSDetector.t) (swings : list SwingPoint)
    (broken : gset Z) (i : Z) (bar : MarketBar) : list BOSEvent.t :=
  (BOSDetector.scan_bar self swings i bar ([], broken)).1.

(** The loop variables when the first [n] bars have been scanned. *)
Definition bos_state_after (self : BOSDetector.t) (swings : list SwingPoint)
    (bars : list MarketBar) (n : nat) : BOSDetector.state :=
  BOSDetector.scan self swings 0 (take n bars) ([], ∅).

(** The events bar [n] adds in a scan of [bars]. *)
Definition bos_emitted_at (self : BOSDetector.t) (swings : list SwingPoint)
    (bars : list MarketBar) (n : nat) : list BOSEvent.t :=
  match bars !! n with
  | Some bar =>
      bos_emitted self swings (bos_state_after self swings bars n).2
        (Z.of_nat n) bar
  | None => []
  end.

(** The most recently formed swing of type [t] that lies before bar [i]
    and is not broken: the last such one in the list of swings. *)
Definition most_recent_unbroken (t : SwingType) (swings : list SwingPoint)
    (broken : gset Z) (i : Z) : option SwingPoint :=
  last (filter (fun s => swing_type s = t /\ bar_index s < i /\
                         bar_index s ∉ broken) swings).

Definition bullish_break (self : BOSDetector.t) (swings : list SwingPoint)
    (broken : gset Z) (i : Z) (bar : MarketBar) : list BOSEvent.t :=
  let break_price := if BOSDetector.use_body self then close bar else high bar in
  match most_recent_unbroken HIGH swings broken i with
  | Some s =>
      if price s <? break_price
      then [BOSEvent.mk BOSDirection.BULLISH s break_price bar (timestamp_utc bar)]
      else []
  | None => []
  end.

Definition bearish_break (self : BOSDetector.t) (swings : list SwingPoint)
    (broken : gset Z) (i : Z) (bar : MarketBar) : list BOSEvent.t :=
  let break_price := if BOSDetector.use_body self then close bar else low bar in
  match most_recent_unbroken LOW swings broken i with
  | Some s =>
      if break_price <? price s
      then [BOSEvent.mk BOSDirection.BEARISH s break_price bar (timestamp_utc bar)]
      else []
  | None => []
  end.

(** ** The CHoCH scan *)

Definition choch_broken_index (e : CHoCHEvent.t) : Z :=
  bar_index (CHoCHEvent.broken_swing e).

Definition choch_state_after (self : CHoCHDetector.t) (swings : list SwingPoint)
    (trend_state : TrendState.t) (bars : list MarketBar) (n : nat)
    : CHoCHDetector.state :=
  CHoCHDetector.scan self swings trend_state 0 (take n bars) ([], ∅).

(** No swing broken twice, and the broken set is the set of bar indices of
    the swings this scan broke. *)
Definition choch_inv (st : CHoCHDetector.state) : Prop :=
  NoDup (CHoCHEvent.broken_swing <$> st.1) /\
  st.2 = list_to_set (choch_broken_index <$> st.1).

(** ** Worked inputs *)

(** Eleven bars with one peak, at index 5. *)
Definition peak_bars : list MarketBar :=
  [mkBar 1 10 12 9 11; mkBar 2 11 13 10 12; mkBar 3 12 14 11 13;
   mkBar 4 13 15 12 14; mkBar 5 14 16 13 15; mkBar 6 15 20 14 16;
   mkBar 7 14 16 13 15; mkBar 8 13 15 12 14; mkBar 9 12 14 11 13;
   mkBar 10 11 13 10 12; mkBar 11 10 12 9 11].

(** Eleven bars with one trough, at index 5. *)
Definition trough_bars : list MarketBar :=
  [mkBar 21 21 23 20 22; mkBar 22 20 22 19 21; mkBar 23 19 21 18 20;
   mkBar 24 18 20 17 19; mkBar 25 17 19 16 18; mkBar 26 11 13 10 12;
   mkBar 27 17 19 16 18; mkBar 28 18 20 17 19; mkBar 29 19 21 18 20;
   mkBar 30 20 22 19 21; mkBar 31 21 23 20 22].

Definition detector5 : SwingDetector := mkSwingDetector 5 0 0 0.

(** Three bars, the last one older than the one before it. *)
Definition unordered_bars : list MarketBar :=
  [mkBar 1 11 13 10 12; mkBar 3 12 14 10 13; mkBar 2 12 12 8 9].

(** A swing low that both detectors break on the same input. *)
Definition shared_bars : list MarketBar :=
  [mkBar 1 11 13 10 12; mkBar 2 12 14 10 13; mkBar 3 12 12 8 9].

Definition shared_low : SwingPoint := mkSwing 2 10 LOW 1 1 1.

(** Bar 3 takes out the high and the low of bar 2 with its wicks; the older
    high of bar 1 is the higher-priced one. *)
Definition outside_bars : list MarketBar :=
  [mkBar 1 10 12 9 11; mkBar 2 11 20 10 12; mkBar 3 12 15 8 13;
   mkBar 4 10 16 7 9; mkBar 5 9 10 8 9].

Definition outside_swings : list SwingPoint :=
  [mkSwing 2 20 HIGH 1 1 2; mkSwing 3 15 HIGH 2 1 1; mkSwing 3 8 LOW 2 1 2].

(** Bar 1 is a swing high (15) and a swing low (10). Bar 2 closes above the
    high; bars 4 and 5 close below the low. *)
Definition retire_bars : list MarketBar :=
  [mkBar 1 11 13 10 12; mkBar 2 12 15 10 13; mkBar 3 13 17 12 16;
   mkBar 4 16 18 12 14; mkBar 5 14 14 8 9; mkBar 6 9 9 7 8].

Definition retire_high : SwingPoint := mkSwing 2 15 HIGH 1 1 2.
Definition retire_low : SwingPoint := mkSwing 2 10 LOW 1 1 1.

Definition retire_swings : list SwingPoint :=
  [retire_high; retire_low; mkSwing 4 12 LOW 3 1 1].

(** Four rising highs and four rising lows. *)
Definition rising_swings : list SwingPoint :=
  [mkSwing 1 10 LOW 1 1 2; mkSwing 2 15 HIGH 2 1 2;
   mkSwing 3 11 LOW 3 1 2; mkSwing 4 16 HIGH 4 1 2;
   mkSwing 5 12 LOW 5 1 2; mkSwing 6 17 HIGH 6 1 2;
   mkSwing 7 13 LOW 7 1 2; mkSwing 8 18 HIGH 8 1 2].

(** * Further vocabulary *)

(** [SwingDetector.get_last_swing_high], [get_last_swing_low] *)
Definition get_last_swing_high (self : SwingDetector) (swings : list SwingPoint)
    : option SwingPoint :=
  last (only HIGH swings).

Definition get_last_swing_low (self : SwingDetector) (swings : list SwingPoint)
    : option SwingPoint :=
  last (only LOW swings).

(** The total counter is the sum of the two per-type counters. *)
Definition counters_consistent (self : SwingDetector) : Prop :=
  swings_detected self = highs_detected self + lows_detected self.

(** Same type and same bar. *)
Definition same_swing_slot (a b : SwingPoint) : Prop :=
  swing_type a = swing_type b /\ bar_index a = bar_index b.

(** [peak_bars] followed by a second, higher peak at index 11. *)
Definition twin_peak_bars : list MarketBar :=
  peak_bars ++ [mkBar 12 11 21 10 12; mkBar 13 11 13 10 12;
    mkBar 14 11 13 10 12; mkBar 15 11 13 10 12; mkBar 16 11 13 10 12;
    mkBar 17 11 13 10 12].

#[global] Instance formed_no_later_dec : RelDecision formed_no_later.
Proof. intros a b. unfold formed_no_later. apply _. Defined.

(** What a BOS event says about the bar [bar] that caused it. *)
Definition bos_event_sound (self : BOSDetector.t) (swings : list SwingPoint)
    (i : Z) (bar : MarketBar) (e : BOSEvent.t) : Prop :=
  BOSEvent.break_bar e = bar /\
  BOSEvent.timestamp e = timestamp_utc bar /\
  BOSEvent.broken_swing e ∈ swings /\
  bar_index (BOSEvent.broken_swing e) < i /\
  match BOSEvent.direction e with
  | BOSDirection.BULLISH =>
      swing_type (BOSEvent.broken_swing e) = HIGH /\
      BOSEvent.break_price e
        = (if BOSDetector.use_body self then close bar else high bar) /\
      price (BOSEvent.broken_swing e) < BOSEvent.break_price e
  | BOSDirection.BEARISH =>
      swing_type (BOSEvent.broken_swing e) = LOW /\
      BOSEvent.break_price e
        = (if BOSDetector.use_body self then close bar else low bar) /\
      BOSEvent.break_price e < price (BOSEvent.broken_swing e)
  end.

Definition bos_not_after (a b : BOSEvent.t) : Prop :=
  BOSEvent.timestamp a <= BOSEvent.timestamp b.

(** The events one bar adds to a CHoCH scan, given the broken set at its
    start. *)
Definition choch_emitted (self : CHoCHDetector.t) (swings : list SwingPoint)
    (trend_state : TrendState.t) (broken : gset Z) (i : Z) (bar : MarketBar)
    : list CHoCHEvent.t :=
  (CHoCHDetector.scan_bar self swings trend_state i bar ([], broken)).1.

Definition choch_emitted_at (self : CHoCHDetector.t) (swings : list SwingPoint)
    (trend_state : TrendState.t) (bars : list MarketBar) (n : nat)
    : list CHoCHEvent.t :=
  match bars !! n with
  | Some bar =>
      choch_emitted self swings trend_state
        (choch_state_after self swings trend_state bars n).2 (Z.of_nat n) bar
  | None => []
  end.

(** What a CHoCH event says about the bar [bar] that caused it, in a scan
    run under [trend_state]. *)
Definition choch_event_sound (self : CHoCHDetector.t) (swings : list SwingPoint)
    (trend_state : TrendState.t) (i : Z) (bar : MarketBar) (e : CHoCHEvent.t)
    : Prop :=
  CHoCHEvent.break_bar e = bar /\
  CHoCHEvent.timestamp e = timestamp_utc bar /\
  CHoCHEvent.prior_trend e = trend_state /\
  CHoCHEvent.broken_swing e ∈ swings /\
  bar_index (CHoCHEvent.broken_swing e) < i /\
  match trend_state with
  | TrendState.BULLISH =>
      CHoCHEvent.choch_type e = BULLISH_TO_BEARISH /\
      swing_type (CHoCHEvent.broken_swing e) = LOW /\
      CHoCHEvent.break_price e
        = (if CHoCHDetector.use_body self then close bar else low bar) /\
      CHoCHEvent.break_price e < price (CHoCHEvent.broken_swing e)
  | TrendState.BEARISH =>
      CHoCHEvent.choch_type e = BEARISH_TO_BULLISH /\
      swing_type (CHoCHEvent.broken_swing e) = HIGH /\
      CHoCHEvent.break_price e
        = (if CHoCHDetector.use_body self then close bar else high bar) /\
      price (CHoCHEvent.broken_swing e) < CHoCHEvent.break_price e
  | _ => False
  end.

(** The break an event records, whichever detector emitted it: the swing,
    the break price, the bar and the timestamp. *)
Definition bos_break (e : BOSEvent.t) : SwingPoint * Z * MarketBar * Z :=
  (BOSEvent.broken_swing e, BOSEvent.break_price e, BOSEvent.break_bar e,
   BOSEvent.timestamp e).

Definition choch_break (e : CHoCHEvent.t) : SwingPoint * Z * MarketBar * Z :=
  (CHoCHEvent.broken_swing e, CHoCHEvent.break_price e, CHoCHEvent.break_bar e,
   CHoCHEvent.timestamp e).

(** The swing type a CHoCH scan looks at under a trend. *)
Definition counter_trend_type (trend_state : TrendState.t) : option SwingType :=
  match trend_state with
  | TrendState.BULLISH => Some LOW
  | TrendState.BEARISH => Some HIGH
  | _ => None
  end.

(** The direction of a BOS event that breaks a swing of type [t]. *)
Definition direction_against (t : SwingType) : BOSDirection.t :=
  match t with HIGH => BOSDirection.BULLISH | LOW => BOSDirection.BEARISH end.

(** * Properties *)

Ltac bool_arith :=
  repeat match goal with
    | |- context [?a <=? ?b] => destruct (Z.leb_spec a b)
    | |- context [?a <? ?b] => destruct (Z.ltb_spec a b)
    end;
  try case_bool_decide; cbn in *; first [done | lia].

Ltac set_unions :=
  apply set_eq; intros ?; cbn;
  rewrite ?elem_of_union, ?elem_of_singleton, ?elem_of_empty; tauto.

(** Close a decidable closed goal by evaluation. *)
Ltac by_evaluation := refine (bool_decide_unpack _ _); vm_compute; exact I.
Section python_sequences.
Context {A : Type}.
Implicit Types l : list A.

Lemma py_index_lookup l (i : Z) x :
  0 <= i -> l !! Z.to_nat i = Some x -> py_index l i = Ok x.
Proof.
  intros Hi Hx. unfold py_index.
  pose proof (lookup_lt_Some _ _ _ Hx) as Hlt.
  destruct (Z.ltb_spec i 0); [lia|].
  destruct (Z.leb_spec 0 i); [|lia].
  destruct (Z.ltb_spec i (Z.of_nat (length l))); [|lia].
  simpl. by rewrite Hx.
Qed.

Lemma py_range_nil a b : b <= a -> py_range a b = [].
Proof. intros. unfold py_range. by replace (Z.to_nat (b - a)) with 0%nat by lia. Qed.

Lemma py_range_cons a b : a < b -> py_range a b = a :: py_range (a + 1) b.
Proof.
  intros. unfold py_range.
  replace (Z.to_nat (b - a)) with (S (Z.to_nat (b - (a + 1)))) by lia.
  cbn [seq fmap list_fmap]. f_equal; [lia|].
  rewrite <- seq_shift, <- list_fmap_compose.
  apply list_fmap_ext. intros _ k _. simpl. lia.
Qed.

Lemma elem_of_py_range a b j : j ∈ py_range a b <-> a <= j < b.
Proof.
  unfold py_range. rewrite list_elem_of_fmap. split.
  - intros (k & -> & Hk). apply elem_of_seq in Hk. lia.
  - intros Hj. exists (Z.to_nat (j - a)). split; [lia|].
    apply elem_of_seq. lia.
Qed.

Lemma py_range_app a b c :
  a <= b <= c -> py_range a c = py_range a b ++ py_range b c.
Proof.
  intros. unfold py_range.
  replace (Z.to_nat (c - a)) with (Z.to_nat (b - a) + Z.to_nat (c - b))%nat by lia.
  rewrite seq_app, fmap_app. f_equal.
  replace (0 + Z.to_nat (b - a))%nat with (Z.to_nat (b - a) + 0)%nat by lia.
  rewrite <- (fmap_add_seq (Z.to_nat (b - a)) 0), <- list_fmap_compose.
  apply list_fmap_ext. intros _ k _. simpl. lia.
Qed.
End python_sequences.

Lemma py_index_bar_at bars (i : Z) :
  0 <= i < Z.of_nat (length bars) -> py_index bars i = Ok (bar_at bars i).
Proof.
  intros Hi. apply py_index_lookup; [lia|].
  apply list_lookup_lookup_total_lt. lia.
Qed.



Lemma tally_nil self : tally [] self = self.
Proof. destruct self. unfold tally. simpl. f_equal; lia. Qed.

Lemma tally_app l1 l2 self : tally (l1 ++ l2) self = tally l2 (tally l1 self).
Proof.
  unfold tally, only. simpl. rewrite !filter_app, !length_app. f_equal; lia.
Qed.

Lemma lookback_tally l self : lookback (tally l self) = lookback self.
Proof. done. Qed.

Section windows.
Variable bars : list MarketBar.

Lemma window_respects_ok violates idxs :
  Forall (in_bars bars) idxs ->
  window_respects violates bars idxs
  = Ok (forallb (fun j => negb (violates (bar_at bars j))) idxs).
Proof.
  induction 1 as [|j idxs Hj _ IH]; [done|].
  cbn [window_respects forallb].
  rewrite py_index_bar_at by done. cbn.
  destruct (violates (bar_at bars j)); [done|]. by rewrite IH.
Qed.

Lemma count_respecting_ok respects index idxs acc :
  Forall (in_bars bars) idxs ->
  count_respecting respects bars index idxs acc
  = Ok (acc + Z.of_nat (length
          (filter (fun j => j ≠ index /\ respects (bar_at bars j) = true) idxs))).
Proof.
  intros Hin. revert acc.
  induction Hin as [|j idxs Hj _ IH]; intros acc.
  { cbn. f_equal. lia. }
  cbn [count_respecting]. rewrite filter_cons.
  destruct (decide (j ≠ index)) as [Hne|Heq].
  - rewrite bool_decide_eq_true_2 by done.
    rewrite py_index_bar_at by done. cbn. rewrite IH.
    destruct (respects (bar_at bars j)) eqn:Hr.
    + rewrite decide_True by done. cbn [length]. f_equal. lia.
    + rewrite decide_False by (intros [_ ?]; done). done.
  - rewrite bool_decide_eq_false_2 by done. rewrite IH.
    rewrite decide_False by (intros [? _]; done). done.
Qed.

Lemma window_in_bars lb i a b :
  0 <= lb -> lb <= i < Z.of_nat (length bars) - lb ->
  i - lb <= a -> b <= i + lb + 1 ->
  Forall (in_bars bars) (py_range a b).
Proof.
  intros. apply Forall_forall. intros j Hj%elem_of_py_range.
  unfold in_bars. lia.
Qed.
End windows.

Lemma forallb_ext_in {A} (f g : A -> bool) l :
  (forall x, x ∈ l -> f x = g x) -> forallb f l = forallb g l.
Proof.
  induction l as [|x l IH]; intros H; [done|]. cbn.
  rewrite H by left. rewrite IH; [done|]. intros. apply H. by right.
Qed.

Lemma is_swing_method_ok t self bars i :
  0 <= lookback self ->
  lookback self <= i < Z.of_nat (length bars) - lookback self ->
  match t with
  | HIGH => _is_swing_high self bars i
  | LOW => _is_swing_low self bars i
  end = Ok (is_swing t (lookback self) bars i).
Proof.
  intros Hlb Hi.
  assert (in_bars bars i) as Hin by (unfold in_bars; lia).
  assert (forall f g l r,
    (forall j, negb (f (bar_at bars j)) = bool_decide
       (worse t (extreme t (bar_at bars j)) (extreme t (bar_at bars i)))) ->
    (forall j, negb (g (bar_at bars j)) = bool_decide
       (not_better t (extreme t (bar_at bars j)) (extreme t (bar_at bars i)))) ->
    l = py_range (i - lookback self) i ->
    r = py_range (i + 1) (i + lookback self + 1) ->
    (left ← window_respects f bars l;
     if negb left then Ok false else window_respects g bars r)
    = Ok (is_swing t (lookback self) bars i)) as Hboth.
  { intros f g l r Hf Hg -> ->. unfold is_swing.
    rewrite !(window_respects_ok bars) by (eapply window_in_bars; eauto; lia).
    cbn.
    rewrite (forallb_ext_in _ _ _ (fun j _ => Hf j)).
    rewrite (forallb_ext_in _ _ _ (fun j _ => Hg j)).
    by destruct (forallb _ (py_range (i - lookback self) i)). }
  destruct t; unfold _is_swing_high, _is_swing_low;
    rewrite py_index_bar_at by done; cbn;
    apply Hboth; try done; intros j; cbn; bool_arith.
Qed.

Lemma strength_method_ok t self bars i :
  0 <= lookback self ->
  lookback self <= i < Z.of_nat (length bars) - lookback self ->
  _calculate_strength self bars i t = Ok (strength_of t (lookback self) bars i).
Proof.
  intros Hlb Hi.
  assert (in_bars bars i) as Hin by (unfold in_bars; lia).
  unfold _calculate_strength, strength_of.
  rewrite py_index_bar_at by done. cbn.
  destruct t; rewrite (count_respecting_ok bars)
    by (eapply window_in_bars; eauto; lia);
    rewrite Z.add_0_l; do 3 f_equal;
    apply list_filter_iff; intros j; cbn; rewrite Z.ltb_lt; done.
Qed.


Lemma check_swing_ok t bars i swings self :
  1 <= lookback self ->
  lookback self <= i < Z.of_nat (length bars) - lookback self ->
  0 < extreme t (bar_at bars i) ->
  check_swing t bars i swings self
  = (tally (found_at t (lookback self) bars i) self,
     Ok (swings ++ found_at t (lookback self) bars i)).
Proof.
  intros Hlb Hi Hpos.
  unfold check_swing, found_at, mbind, Method_bind, this, lift.
  rewrite is_swing_method_ok by lia.
  destruct (is_swing t (lookback self) bars i).
  - rewrite py_index_bar_at by lia.
    rewrite strength_method_ok by lia.
    unfold SwingPoint_init.
    replace (match t with HIGH => high (bar_at bars i) | LOW => low (bar_at bars i) end)
      with (extreme t (bar_at bars i)) by (by destruct t).
    destruct (Z.leb_spec (extreme t (bar_at bars i)) 0); [lia|].
    destruct (Z.ltb_spec (lookback self) 1); [lia|].
    destruct (Z.ltb_spec i 0); [lia|].
    unfold count_swing, tally, only, mret, Method_ret, swing_of.
    destruct t; cbn; repeat f_equal; try lia; rewrite decide_False by done; cbn; lia.
  - cbn. by rewrite tally_nil, app_nil_r.
Qed.

Lemma detect_swings_loop_ok bars idxs swings self :
  1 <= lookback self ->
  Forall bar_invariant bars ->
  Forall (fun i => lookback self <= i < Z.of_nat (length bars) - lookback self) idxs ->
  detect_swings_loop bars idxs swings self
  = (tally (idxs ≫= swings_at (lookback self) bars) self,
     Ok (swings ++ (idxs ≫= swings_at (lookback self) bars))).
Proof.
  intros Hlb Hbars Hidxs. revert swings self Hlb Hidxs.
  induction idxs as [|i idxs IH]; intros swings self Hlb Hidxs.
  { cbn. by rewrite tally_nil, app_nil_r. }
  apply Forall_cons in Hidxs as [Hi Hidxs].
  assert (bar_invariant (bar_at bars i)) as Hinv.
  { eapply Forall_lookup_1; [done|].
    apply list_lookup_lookup_total_lt. lia. }
  cbn [detect_swings_loop]. unfold mbind at 1, Method_bind at 1.
  rewrite check_swing_ok by (unfold bar_invariant in Hinv; cbn; lia).
  unfold mbind at 1, Method_bind at 1.
  rewrite check_swing_ok
    by (rewrite ?lookback_tally; unfold bar_invariant in Hinv; cbn; lia).
  rewrite lookback_tally. rewrite IH by (rewrite ?lookback_tally; done).
  rewrite !lookback_tally. cbn [mbind list_bind].
  change (swings_at (lookback self) bars i)
    with (found_at HIGH (lookback self) bars i ++ found_at LOW (lookback self) bars i).
  by rewrite !tally_app, <- !(assoc_L (++)).
Qed.



Lemma validate_from_ordered i bars :
  time_ordered bars -> validate_from i bars = Ok tt.
Proof.
  intros H. revert i. induction H as [|b bars Hs IH Hhd]; intros i; [done|].
  destruct Hhd as [|b' bars' Hlt]; [done|].
  cbn [validate_from]. unfold bar_before in Hlt.
  destruct (Z.leb_spec (timestamp_utc b') (timestamp_utc b)); [lia|].
  apply IH.
Qed.

Lemma validate_from_unordered i bars :
  ¬ time_ordered bars ->
  exists k, validate_from i bars = Raise (ValueError_time_order k).
Proof.
  revert i. induction bars as [|b bars IH]; intros i Hno.
  { destruct Hno. constructor. }
  destruct bars as [|b' bars].
  { destruct Hno. repeat constructor. }
  cbn [validate_from].
  destruct (Z.leb_spec (timestamp_utc b') (timestamp_utc b)); [by eexists|].
  apply IH. intros Hs. apply Hno. constructor; [done|]. by constructor.
Qed.

Lemma StronglySorted_lookup {A} (R : relation A) l (i j : nat) x y :
  StronglySorted R l -> l !! i = Some x -> l !! j = Some y -> (i < j)%nat ->
  R x y.
Proof.
  intros Hs. revert i j. induction Hs as [|a l Hs IH Hall]; intros i j Hi Hj Hlt.
  { done. }
  destruct j as [|j]; [lia|]. destruct i as [|i]; simplify_eq/=.
  - rewrite Forall_forall in Hall. apply Hall. by eapply list_elem_of_lookup_2.
  - eapply IH; eauto. lia.
Qed.

Lemma bar_at_mono bars i j :
  time_ordered bars -> in_bars bars i -> in_bars bars j -> i <= j ->
  timestamp_utc (bar_at bars i) <= timestamp_utc (bar_at bars j).
Proof.
  intros Hs%Sorted_StronglySorted Hi Hj Hij; [|apply _].
  destruct (decide (i = j)) as [->|Hne]; [lia|].
  apply Z.lt_le_incl.
  eapply (StronglySorted_lookup bar_before bars (Z.to_nat i) (Z.to_nat j)); eauto.
  - apply list_lookup_lookup_total_lt. unfold in_bars in *. lia.
  - apply list_lookup_lookup_total_lt. unfold in_bars in *. lia.
  - unfold in_bars in *. lia.
Qed.

Lemma sort_by_timestamp_sorted l :
  StronglySorted not_after l -> sort_by_timestamp l = l.
Proof.
  induction 1 as [|s l Hs IH Hall]; [done|].
  unfold sort_by_timestamp in *. cbn [foldr]. rewrite IH.
  destruct l as [|x l]; [done|]. cbn.
  apply Forall_cons in Hall as [Hsx _]. unfold not_after in Hsx.
  by destruct (Z.leb_spec (timestamp s) (timestamp x)); [|lia].
Qed.

Lemma py_range_sorted a b : StronglySorted Z.le (py_range a b).
Proof.
  unfold py_range. generalize (Z.to_nat (b - a)). intros n. revert a.
  induction n as [|n IH]; intros a; [constructor|].
  cbn [seq fmap list_fmap]. constructor.
  - rewrite <- fmap_S_seq, <- list_fmap_compose.
    rewrite (list_fmap_ext _ (fun k : nat => (a + 1) + Z.of_nat k) (seq 0 n));
      [apply IH|].
    intros _ k _. simpl. lia.
  - apply Forall_forall. intros z (k & -> & Hk)%list_elem_of_fmap. lia.
Qed.

Lemma elem_of_swings_at lb bars i s :
  s ∈ swings_at lb bars i ->
  bar_index s = i /\ timestamp s = timestamp_utc (bar_at bars i).
Proof.
  unfold swings_at. intros Hs. apply elem_of_app in Hs as [Hs|Hs];
    destruct (is_swing _ _ _ _);
    first [by apply elem_of_nil in Hs
          | by apply list_elem_of_singleton in Hs as ->].
Qed.

Lemma emitted_sorted lb bars idxs :
  time_ordered bars -> StronglySorted Z.le idxs -> Forall (in_bars bars) idxs ->
  StronglySorted not_after (idxs ≫= swings_at lb bars).
Proof.
  intros Hbars Hs. induction Hs as [|i idxs Hs IH Hall]; intros Hin.
  { constructor. }
  apply Forall_cons in Hin as [Hi Hin].
  rewrite bind_cons. apply StronglySorted_app_2; [| |by apply IH].
  - intros s1 s2 [_ H1]%elem_of_swings_at (j & H2 & Hj)%list_elem_of_bind.
    apply elem_of_swings_at in H2 as [_ H2].
    unfold not_after. rewrite H1, H2.
    rewrite Forall_forall in Hall, Hin.
    apply bar_at_mono; auto.
  - unfold swings_at.
    destruct (is_swing HIGH lb bars i), (is_swing LOW lb bars i); cbn;
      repeat constructor. unfold not_after. cbn. lia.
Qed.

Lemma detect_swings_ok bars self :
  1 <= lookback self -> time_ordered bars -> Forall bar_invariant bars ->
  detect_swings bars self
  = (tally (expected_swings (lookback self) bars) self,
     Ok (expected_swings (lookback self) bars)).
Proof.
  intros Hlb Hord Hinv. unfold expected_swings, detect_swings.
  destruct bars as [|b0 bars0] eqn:Hbars.
  { rewrite py_range_nil by (cbn; lia). by rewrite tally_nil. }
  rewrite <- Hbars in *. clear Hbars.
  unfold _validate_bar_sequence, mbind, Method_bind, lift, this.
  rewrite validate_from_ordered by done.
  destruct (Z.ltb_spec (Z.of_nat (length bars)) (lookback self * 2 + 1)).
  { rewrite py_range_nil by lia. by rewrite tally_nil. }
  rewrite detect_swings_loop_ok; [|done|done|].
  2:{ apply Forall_forall. intros i Hi%elem_of_py_range. lia. }
  cbn. rewrite sort_by_timestamp_sorted; [done|].
  apply emitted_sorted; [done|apply py_range_sorted|].
  apply Forall_forall. intros i Hi%elem_of_py_range. unfold in_bars. lia.
Qed.



Lemma forallb_bool_decide {A} (P : A -> Prop) `{!forall x, Decision (P x)} l :
  forallb (fun x => bool_decide (P x)) l = true <-> forall x, x ∈ l -> P x.
Proof.
  induction l as [|x l IH]; cbn.
  - split; [|done]. intros _ x Hx. by apply elem_of_nil in Hx.
  - rewrite andb_true_iff, bool_decide_eq_true, IH. split.
    + intros [Hx Hl] y [->|Hy]%elem_of_cons; auto.
    + intros Hall. split; [apply Hall; left|intros y Hy; apply Hall; by right].
Qed.

Lemma is_swing_spec t lb bars i :
  is_swing t lb bars i = true <->
  (forall j, i - lb <= j < i ->
     worse t (extreme t (bar_at bars j)) (extreme t (bar_at bars i))) /\
  (forall j, i + 1 <= j < i + lb + 1 ->
     not_better t (extreme t (bar_at bars j)) (extreme t (bar_at bars i))).
Proof.
  unfold is_swing. rewrite andb_true_iff.
  rewrite (forallb_bool_decide (fun j => worse t (extreme t (bar_at bars j)) _)).
  rewrite (forallb_bool_decide (fun j => not_better t (extreme t (bar_at bars j)) _)).
  by setoid_rewrite elem_of_py_range.
Qed.

Lemma elem_of_expected_swings lb bars s :
  s ∈ expected_swings lb bars <->
  lb <= bar_index s < Z.of_nat (length bars) - lb /\
  is_swing (swing_type s) lb bars (bar_index s) = true /\
  s = swing_of (swing_type s) lb bars (bar_index s).
Proof.
  unfold expected_swings. rewrite list_elem_of_bind. split.
  - intros (i & Hs & Hi%elem_of_py_range). unfold swings_at in Hs.
    apply elem_of_app in Hs as [Hs|Hs];
      destruct (is_swing _ _ _ i) eqn:Hsw;
      try (by apply elem_of_nil in Hs);
      apply list_elem_of_singleton in Hs as ->; done.
  - intros (Hi & Hsw & Hs). exists (bar_index s).
    rewrite elem_of_py_range. split; [|done].
    unfold swings_at. rewrite elem_of_app.
    destruct (swing_type s); rewrite Hsw, list_elem_of_singleton; auto.
Qed.

Lemma bar_at_lookup bars (j : Z) b :
  bars !! Z.to_nat j = Some b -> bar_at bars j = b.
Proof. intros H. unfold bar_at. by apply list_lookup_total_correct. Qed.

Lemma lookup_bar_at bars (j : Z) :
  in_bars bars j -> bars !! Z.to_nat j = Some (bar_at bars j).
Proof. intros H. apply list_lookup_lookup_total_lt. unfold in_bars in H. lia. Qed.

Lemma swing_condition_is_swing t lb bars i :
  0 <= lb -> lb <= i < Z.of_nat (length bars) - lb ->
  (is_swing t lb bars i = true <->
   match t with
   | HIGH => swing_high_condition lb bars i
   | LOW => swing_low_condition lb bars i
   end).
Proof.
  intros Hlb Hi. rewrite is_swing_spec.
  assert (forall j, i - lb <= j <= i + lb -> in_bars bars j) as Hin
    by (unfold in_bars; lia).
  destruct t; unfold swing_high_condition, swing_low_condition; cbn; split.
  - intros [Hl Hr]. split; [done|]. exists (bar_at bars i).
    split; [apply lookup_bar_at, Hin; lia|]. split.
    + intros j b Hj <-%bar_at_lookup. apply Hl. lia.
    + intros j b Hj <-%bar_at_lookup. apply Hr. lia.
  - intros (_ & c & <-%bar_at_lookup & Hl & Hr). split.
    + intros j Hj. apply (Hl j); [lia|]. apply lookup_bar_at, Hin. lia.
    + intros j Hj. apply (Hr j); [lia|]. apply lookup_bar_at, Hin. lia.
  - intros [Hl Hr]. split; [done|]. exists (bar_at bars i).
    split; [apply lookup_bar_at, Hin; lia|]. split.
    + intros j b Hj <-%bar_at_lookup. apply Hl. lia.
    + intros j b Hj <-%bar_at_lookup. apply Hr. lia.
  - intros (_ & c & <-%bar_at_lookup & Hl & Hr). split.
    + intros j Hj. apply (Hl j); [lia|]. apply lookup_bar_at, Hin. lia.
    + intros j Hj. apply (Hr j); [lia|]. apply lookup_bar_at, Hin. lia.
Qed.

(** C1. On strictly time-ordered bars and with lookback >= 1,
    [detect_swings] returns a list that holds a HIGH swing point with bar
    index [i] exactly when [i] has [lookback] bars on both sides, its high
    is strictly above every high of the [lookback] bars before it and at
    least every high of the [lookback] bars after it; and a LOW swing point
    with bar index [i] exactly when the mirrored condition on lows holds.
    Both may hold for one bar. *)
Theorem detect_swings_emits_exactly_the_swings self bars :
  1 <= lookback self -> time_ordered bars -> Forall bar_invariant bars ->
  exists swings,
    (detect_swings bars self).2 = Ok swings /\
    forall i,
      ((exists s, s ∈ swings /\ swing_type s = HIGH /\ bar_index s = i)
       <-> swing_high_condition (lookback self) bars i) /\
      ((exists s, s ∈ swings /\ swing_type s = LOW /\ bar_index s = i)
       <-> swing_low_condition (lookback self) bars i).
Proof.
  intros Hlb Hord Hinv. exists (expected_swings (lookback self) bars).
  rewrite detect_swings_ok by done. split; [done|].
  assert (forall t i,
    (exists s, s ∈ expected_swings (lookback self) bars /\
               swing_type s = t /\ bar_index s = i) <->
    match t with
    | HIGH => swing_high_condition (lookback self) bars i
    | LOW => swing_low_condition (lookback self) bars i
    end) as Hboth.
  { intros t i. split.
    - intros (s & (Hi & Hsw & _)%elem_of_expected_swings & <- & <-).
      apply swing_condition_is_swing; [lia|done|done].
    - intros Hc.
      assert (lookback self <= i < Z.of_nat (length bars) - lookback self) as Hi
        by (destruct t; apply Hc).
      apply swing_condition_is_swing in Hc; [|lia|done].
      exists (swing_of t (lookback self) bars i).
      split; [|done]. apply elem_of_expected_swings. cbn. done. }
  intros i. split; [apply (Hboth HIGH)|apply (Hboth LOW)].
Qed.


Lemma filter_ext_in {A} (P Q : A -> Prop)
    `{!forall x, Decision (P x), !forall x, Decision (Q x)} (l : list A) :
  (forall x, x ∈ l -> P x <-> Q x) -> filter P l = filter Q l.
Proof.
  induction l as [|x l IH]; intros Hl; [done|].
  rewrite !filter_cons. rewrite IH by (intros; apply Hl; by right).
  destruct (decide (P x)) as [HP|HP], (decide (Q x)) as [HQ|HQ];
    try done; exfalso; apply (Hl x) in HP || apply HP, (Hl x); by (done || left).
Qed.

Lemma length_filter_fmap {A B} (f : A -> B) (P : B -> Prop)
    `{!forall y, Decision (P y)} (l : list A) :
  length (filter (fun x => P (f x)) l) = length (filter P (f <$> l)).
Proof.
  induction l as [|x l IH]; [done|]. cbn [fmap list_fmap].
  rewrite !filter_cons. destruct (decide (P (f x))); cbn; by rewrite IH.
Qed.

Lemma filter_all {A} (P : A -> Prop) `{!forall x, Decision (P x)} (l : list A) :
  Forall P l -> filter P l = l.
Proof.
  induction 1 as [|x l Hx _ IH]; [done|].
  by rewrite filter_cons_True, IH.
Qed.

Lemma bar_at_py_range bars a (n : nat) :
  0 <= a -> a + Z.of_nat n <= Z.of_nat (length bars) ->
  bar_at bars <$> py_range a (a + Z.of_nat n) = take n (drop (Z.to_nat a) bars).
Proof.
  revert a. induction n as [|n IH]; intros a Ha Hlen.
  { rewrite py_range_nil by lia. done. }
  rewrite py_range_cons by lia. cbn [fmap list_fmap].
  rewrite (drop_S bars (bar_at bars a) (Z.to_nat a))
    by (apply lookup_bar_at; unfold in_bars; lia).
  cbn [take]. f_equal.
  replace (a + Z.of_nat (S n)) with ((a + 1) + Z.of_nat n) by lia.
  rewrite IH by lia. by replace (Z.to_nat (a + 1)) with (S (Z.to_nat a)) by lia.
Qed.

Lemma strength_of_neighbours t lb bars i :
  0 <= lb -> lb <= i < Z.of_nat (length bars) - lb ->
  strength_of t lb bars i
  = Z.of_nat (length (filter
      (fun b => worse t (extreme t b) (extreme t (bar_at bars i)))
      (neighbours lb bars i))).
Proof.
  intros Hlb Hi. unfold strength_of, neighbours. f_equal.
  rewrite (py_range_app (i - lb) i) by lia.
  rewrite (py_range_cons i) by lia.
  rewrite !filter_app, filter_cons_False by (intros [? _]; done).
  rewrite !length_app. f_equal.
  - rewrite (filter_ext_in _
      (fun j => worse t (extreme t (bar_at bars j)) (extreme t (bar_at bars i))))
      by (intros j Hj%elem_of_py_range; split; [by intros [_ ?]|split; [lia|done]]).
    rewrite <- bar_at_py_range by lia.
    replace (i - lb + Z.of_nat (Z.to_nat lb)) with i by lia.
    exact (length_filter_fmap (bar_at bars)
      (fun b => worse t (extreme t b) (extreme t (bar_at bars i))) _).
  - rewrite (filter_ext_in _
      (fun j => worse t (extreme t (bar_at bars j)) (extreme t (bar_at bars i))))
      by (intros j Hj%elem_of_py_range; split; [by intros [_ ?]|split; [lia|done]]).
    rewrite <- bar_at_py_range by lia.
    replace (i + 1 + Z.of_nat (Z.to_nat lb)) with (i + lb + 1) by lia.
    exact (length_filter_fmap (bar_at bars)
      (fun b => worse t (extreme t b) (extreme t (bar_at bars i))) _).
Qed.

Lemma length_neighbours lb bars i :
  0 <= lb -> lb <= i < Z.of_nat (length bars) - lb ->
  Z.of_nat (length (neighbours lb bars i)) = 2 * lb.
Proof.
  intros. unfold neighbours.
  rewrite length_app, !length_take, !length_drop. lia.
Qed.

(** C7. The strength of every detected swing is the number of its
    [2 * lookback] neighbouring bars whose high is strictly lower (HIGH) or
    whose low is strictly higher (LOW) than the swing price. In particular,
    11 time-ordered bars scanned with lookback 5, bar 5 carrying the strict
    maximum high, give exactly one HIGH swing point: index 5, lookback 5,
    strength 10. *)
Theorem detected_strength_counts_respecting_neighbours self bars :
  1 <= lookback self -> time_ordered bars -> Forall bar_invariant bars ->
  exists swings,
    (detect_swings bars self).2 = Ok swings /\
    (forall s, s ∈ swings ->
       Z.of_nat (length (neighbours (lookback self) bars (bar_index s)))
         = 2 * lookback self /\
       strength s
         = Z.of_nat (length (filter (respects_swing s)
                               (neighbours (lookback self) bars (bar_index s))))) /\
    (lookback self = 5 -> length bars = 11%nat ->
     forall c, bars !! 5%nat = Some c ->
       (forall (j : nat) b, j ≠ 5%nat -> bars !! j = Some b -> high b < high c) ->
       only HIGH swings = [mkSwing (timestamp_utc c) (high c) HIGH 5 5 10]).
Proof.
  intros Hlb Hord Hinv. exists (expected_swings (lookback self) bars).
  rewrite detect_swings_ok by done. split; [done|].
  assert (forall s, s ∈ expected_swings (lookback self) bars ->
    Z.of_nat (length (neighbours (lookback self) bars (bar_index s)))
      = 2 * lookback self /\
    strength s = Z.of_nat (length (filter (respects_swing s)
                   (neighbours (lookback self) bars (bar_index s))))) as Hstr.
  { intros s (Hi & _ & Hs)%elem_of_expected_swings.
    split; [apply length_neighbours; lia|].
    rewrite Hs at 1. cbn [strength swing_of].
    rewrite strength_of_neighbours by lia. do 2 f_equal.
    apply list_filter_iff. intros b. unfold respects_swing.
    assert (price s = extreme (swing_type s) (bar_at bars (bar_index s))) as ->
      by (by rewrite Hs at 1).
    by destruct (swing_type s). }
  split; [exact Hstr|].
  intros H5 Hlen c Hc Hmax.
  assert (bar_at bars 5 = c) as Hc5 by (by apply bar_at_lookup).
  assert (is_swing HIGH 5 bars 5 = true) as Hsw.
  { apply is_swing_spec. rewrite Hc5. cbn. split; intros j Hj.
    - apply (Hmax (Z.to_nat j)); [lia|]. apply lookup_bar_at. unfold in_bars. lia.
    - apply Z.lt_le_incl.
      apply (Hmax (Z.to_nat j)); [lia|]. apply lookup_bar_at. unfold in_bars. lia. }
  assert (swing_of HIGH 5 bars 5 ∈ expected_swings 5 bars) as Hin.
  { apply elem_of_expected_swings. cbn. split; [lia|done]. }
  rewrite H5 in *. apply Hstr in Hin as [_ Hin]. cbn [strength swing_of bar_index] in Hin.
  rewrite filter_all in Hin.
  2:{ apply Forall_forall. intros b Hb. unfold respects_swing. cbn. rewrite Hc5.
      unfold neighbours in Hb. apply elem_of_app in Hb as [Hb|Hb];
        apply list_elem_of_lookup in Hb as [k Hk];
        apply lookup_take_Some in Hk as [Hk Hlt];
        rewrite lookup_drop in Hk; refine (Hmax _ _ _ Hk); lia. }
  rewrite length_neighbours in Hin by lia.
  unfold expected_swings. rewrite Hlen.
  change (py_range 5 (Z.of_nat 11 - 5)) with [5].
  cbn [mbind list_bind]. rewrite app_nil_r. unfold swings_at, only.
  rewrite Hsw, filter_app.
  rewrite filter_cons_True, filter_nil by done.
  replace (filter _ (if is_swing LOW 5 bars 5 then _ else _)) with (@nil SwingPoint)
    by (destruct (is_swing LOW 5 bars 5); done).
  cbn. unfold swing_of. rewrite Hin, Hc5. done.
Qed.



(** C8. On strictly time-ordered bars that are fewer than
    [2 * lookback + 1], [detect_swings] returns the empty list, raises
    nothing and leaves the detector as it was. *)
Theorem detect_swings_too_few_bars self bars :
  time_ordered bars ->
  Z.of_nat (length bars) < 2 * lookback self + 1 ->
  detect_swings bars self = (self, Ok []).
Proof.
  intros Hord Hlen. unfold detect_swings.
  destruct bars as [|b0 bars0] eqn:Hbars; [done|].
  rewrite <- Hbars in *. clear Hbars.
  unfold _validate_bar_sequence, mbind, Method_bind, lift, this.
  rewrite validate_from_ordered by done.
  by destruct (Z.ltb_spec (Z.of_nat (length bars)) (lookback self * 2 + 1)); [|lia].
Qed.

Lemma detect_swings_unordered self bars :
  bars ≠ [] -> ¬ time_ordered bars ->
  exists k, detect_swings bars self = (self, Raise (ValueError_time_order k)).
Proof.
  intros Hne Hno. unfold detect_swings.
  destruct bars as [|b0 bars0] eqn:Hbars; [done|].
  rewrite <- Hbars in *. clear Hbars.
  unfold _validate_bar_sequence, mbind, Method_bind, lift, this.
  destruct (validate_from_unordered 0 bars Hno) as [k ->]. by exists k.
Qed.

Lemma SwingDetector_init_ok lb :
  1 <= lb -> SwingDetector_init lb = Ok (mkSwingDetector lb 0 0 0).
Proof. intros. unfold SwingDetector_init. by destruct (Z.ltb_spec lb 1); [lia|]. Qed.

Lemma SwingDetector_init_raises lb :
  lb < 1 -> SwingDetector_init lb = Raise (ValueError_lookback lb).
Proof. intros. unfold SwingDetector_init. by destruct (Z.ltb_spec lb 1); [|lia]. Qed.

Lemma SwingDetector_init_inv lb d :
  SwingDetector_init lb = Ok d -> 1 <= lb /\ d = mkSwingDetector lb 0 0 0.
Proof.
  unfold SwingDetector_init. destruct (Z.ltb_spec lb 1); [done|].
  intros [= <-]. done.
Qed.

(** C9, as the code has it. The counters of a detector are set to zero by
    [__init__] and by [reset_statistics] only; every [detect_swings] call
    adds the swings it found to them. After two calls on a fresh detector
    [get_statistics] reports the swings of both calls together; with
    [reset_statistics] between the calls it reports those of the second
    call only. *)
Theorem statistics_accumulate_until_reset lb d0 bars1 bars2 :
  SwingDetector_init lb = Ok d0 ->
  time_ordered bars1 -> Forall bar_invariant bars1 ->
  time_ordered bars2 -> Forall bar_invariant bars2 ->
  exists d1 swings1 d2 swings2,
    detect_swings bars1 d0 = (d1, Ok swings1) /\
    detect_swings bars2 d1 = (d2, Ok swings2) /\
    get_statistics d2
    = (lb,
       Z.of_nat (length swings1) + Z.of_nat (length swings2),
       Z.of_nat (length (only HIGH swings1)) + Z.of_nat (length (only HIGH swings2)),
       Z.of_nat (length (only LOW swings1)) + Z.of_nat (length (only LOW swings2))) /\
    get_statistics (reset_statistics d2) = (lb, 0, 0, 0) /\
    exists d2',
      detect_swings bars2 (reset_statistics d1) = (d2', Ok swings2) /\
      get_statistics d2' = statistics_of lb swings2.
Proof.
  intros [Hlb ->]%SwingDetector_init_inv Ho1 Hi1 Ho2 Hi2.
  set (d0 := mkSwingDetector lb 0 0 0).
  pose proof (detect_swings_ok bars1 d0 Hlb Ho1 Hi1) as H1.
  set (d1 := tally (expected_swings lb bars1) d0) in *.
  pose proof (detect_swings_ok bars2 d1 Hlb Ho2 Hi2) as H2.
  pose proof (detect_swings_ok bars2 (reset_statistics d1) Hlb Ho2 Hi2) as H3.
  eexists _, _, _, _. split; [exact H1|]. split; [exact H2|].
  split; [done|]. split; [done|].
  eexists. split; [exact H3|]. done.
Qed.

(** C5, as the code has it. [SwingDetector(lookback)] raises the
    invalid-parameter error exactly when [lookback < 1];
    [StructureAnalyzer(min_swings_for_trend)] checks nothing and is built
    for every integer. *)
Theorem constructors_parameter_checks :
  rejects_below_one SwingDetector_init /\
  (forall lb, 1 <= lb -> SwingDetector_init lb = Ok (mkSwingDetector lb 0 0 0)) /\
  (forall m, StructureAnalyzer_init m = Ok (mkStructureAnalyzer m)).
Proof.
  split; [|split].
  - intros lb Hlb. rewrite SwingDetector_init_raises by done. by eexists.
  - apply SwingDetector_init_ok.
  - done.
Qed.



Lemma most_recent_unbroken_relevant t swings broken i :
  last (only t (relevant_swings swings broken i))
  = most_recent_unbroken t swings broken i.
Proof.
  unfold most_recent_unbroken, only, relevant_swings.
  by rewrite list_filter_filter.
Qed.

Lemma most_recent_unbroken_eligible t swings broken i s :
  most_recent_unbroken t swings broken i = Some s ->
  s ∈ swings /\ swing_type s = t /\ bar_index s < i /\ bar_index s ∉ broken.
Proof.
  intros Hl%last_Some_elem_of.
  apply list_elem_of_filter in Hl as [(Ht & Hi & Hb) Hs]. done.
Qed.

Lemma relevant_nil_most_recent t swings broken i :
  relevant_swings swings broken i = [] ->
  most_recent_unbroken t swings broken i = None.
Proof.
  intros H. rewrite <- most_recent_unbroken_relevant, H. done.
Qed.

Lemma bos_emitted_eq self swings broken i bar :
  bos_emitted self swings broken i bar
  = bullish_break self swings broken i bar ++ bearish_break self swings broken i bar.
Proof.
  unfold bos_emitted, BOSDetector.scan_bar, bullish_break, bearish_break.
  cbn [snd].
  destruct (relevant_swings swings broken i) as [|r rs] eqn:Hrel.
  { by rewrite !relevant_nil_most_recent. }
  rewrite <- Hrel, <- !most_recent_unbroken_relevant.
  unfold BOSDetector.check_bullish, BOSDetector.check_bearish.
  destruct (last (only HIGH _)) as [sh|], (last (only LOW _)) as [sl|]; cbn;
    repeat match goal with
      | |- context [?a <? ?b] => destruct (a <? b); cbn
      end; done.
Qed.

Lemma bos_scan_bar_eq self swings i bar events broken :
  BOSDetector.scan_bar self swings i bar (events, broken)
  = (events ++ bos_emitted self swings broken i bar,
     broken ∪ list_to_set (bos_broken_index <$> bos_emitted self swings broken i bar)).
Proof.
  unfold bos_emitted, BOSDetector.scan_bar. cbn [snd fst].
  destruct (relevant_swings swings broken i) as [|r rs] eqn:Hrel.
  { cbn. rewrite app_nil_r. f_equal. set_unions. }
  unfold BOSDetector.check_bullish, BOSDetector.check_bearish.
  destruct (last (only HIGH _)) as [sh|], (last (only LOW _)) as [sl|]; cbn;
    repeat match goal with
      | |- context [?a <? ?b] => destruct (a <? b); cbn
      end;
    rewrite <- ?(assoc_L (++)), ?app_nil_r; f_equal; set_unions.
Qed.



Lemma bos_scan_app self swings i l1 l2 st :
  BOSDetector.scan self swings i (l1 ++ l2) st
  = BOSDetector.scan self swings (i + Z.of_nat (length l1)) l2
      (BOSDetector.scan self swings i l1 st).
Proof.
  revert i st. induction l1 as [|b l1 IH]; intros i st; cbn [BOSDetector.scan app length].
  - by rewrite Z.add_0_r.
  - rewrite IH. f_equal. lia.
Qed.

Lemma bos_state_after_step self swings bars n :
  bos_state_after self swings bars (S n)
  = ((bos_state_after self swings bars n).1 ++ bos_emitted_at self swings bars n,
     (bos_state_after self swings bars n).2
       ∪ list_to_set (bos_broken_index <$> bos_emitted_at self swings bars n)).
Proof.
  unfold bos_emitted_at, bos_state_after.
  destruct (bars !! n) as [bar|] eqn:Hn.
  - rewrite (take_S_r _ _ _ Hn), bos_scan_app.
    rewrite length_take_le by (apply lookup_lt_Some in Hn; lia).
    cbn [BOSDetector.scan]. rewrite Z.add_0_l.
    destruct (BOSDetector.scan self swings 0 (take n bars) ([], ∅)) as [events broken].
    apply bos_scan_bar_eq.
  - apply lookup_ge_None in Hn.
    rewrite !take_ge by lia.
    destruct (BOSDetector.scan self swings 0 bars ([], ∅)) as [events broken].
    cbn. rewrite app_nil_r. f_equal. set_unions.
Qed.

Lemma bos_state_after_0 self swings bars :
  bos_state_after self swings bars 0 = ([], ∅).
Proof. done. Qed.

Lemma detect_bos_state_after self bars swings :
  swings ≠ [] -> (2 <= length bars)%nat ->
  BOSDetector.detect_bos self bars swings
  = Ok (bos_state_after self swings bars (length bars)).1.
Proof.
  intros Hsw Hlen. unfold BOSDetector.detect_bos, bos_state_after.
  destruct swings; [done|].
  destruct (Z.ltb_spec (Z.of_nat (length bars)) 2); [lia|].
  by rewrite firstn_all.
Qed.

Lemma bos_events_concat self swings bars n :
  (bos_state_after self swings bars n).1
  = seq 0 n ≫= bos_emitted_at self swings bars.
Proof.
  induction n as [|n IH]; [done|].
  rewrite bos_state_after_step, seq_S, bind_app, IH. cbn.
  by rewrite app_nil_r.
Qed.

Lemma bos_broken_mono self swings bars n m :
  (n <= m)%nat ->
  (bos_state_after self swings bars n).2 ⊆ (bos_state_after self swings bars m).2.
Proof.
  induction 1 as [|m _ IH]; [done|].
  rewrite bos_state_after_step. cbn [snd].
  etrans; [exact IH|]. apply union_subseteq_l.
Qed.

(** The broken set holds the bar indices of the swings the scan itself
    broke, and nothing else. *)
Lemma bos_broken_own self swings bars n :
  (bos_state_after self swings bars n).2
  = list_to_set (bos_broken_index <$> (bos_state_after self swings bars n).1).
Proof.
  induction n as [|n IH]; [done|].
  rewrite bos_state_after_step. cbn [fst snd].
  by rewrite fmap_app, list_to_set_app_L, IH.
Qed.

Lemma elem_of_bos_emitted self swings broken i bar e :
  e ∈ bos_emitted self swings broken i bar ->
  BOSEvent.broken_swing e ∈ swings /\
  bar_index (BOSEvent.broken_swing e) < i /\
  (bar_index (BOSEvent.broken_swing e) ∉ broken) /\
  swing_type (BOSEvent.broken_swing e)
  = match BOSEvent.direction e with
    | BOSDirection.BULLISH => HIGH
    | BOSDirection.BEARISH => LOW
    end.
Proof.
  rewrite bos_emitted_eq. unfold bullish_break, bearish_break.
  intros He. apply elem_of_app in He as [He|He].
  - destruct (most_recent_unbroken HIGH _ _ _) as [s|] eqn:Hs;
      [|by apply elem_of_nil in He].
    apply most_recent_unbroken_eligible in Hs.
    destruct (_ <? _); [|by apply elem_of_nil in He].
    apply list_elem_of_singleton in He as ->. cbn. tauto.
  - destruct (most_recent_unbroken LOW _ _ _) as [s|] eqn:Hs;
      [|by apply elem_of_nil in He].
    apply most_recent_unbroken_eligible in Hs.
    destruct (_ <? _); [|by apply elem_of_nil in He].
    apply list_elem_of_singleton in He as ->. cbn. tauto.
Qed.

Lemma bos_emitted_NoDup self swings broken i bar :
  NoDup (BOSEvent.broken_swing <$> bos_emitted self swings broken i bar).
Proof.
  rewrite bos_emitted_eq. unfold bullish_break, bearish_break.
  destruct (most_recent_unbroken HIGH _ _ _) as [sh|] eqn:Hh,
           (most_recent_unbroken LOW _ _ _) as [sl|] eqn:Hl;
    repeat match goal with
      | |- context [?a <? ?b] => destruct (a <? b); cbn
      end;
    repeat constructor; try (by intros ?%elem_of_nil).
  intros ->%list_elem_of_singleton.
  apply most_recent_unbroken_eligible in Hh, Hl.
  destruct Hh as (_ & Ht & _), Hl as (_ & Ht' & _). congruence.
Qed.

Lemma bos_events_NoDup self swings bars n :
  NoDup (BOSEvent.broken_swing <$> (bos_state_after self swings bars n).1).
Proof.
  induction n as [|n IH]; [constructor|].
  rewrite bos_state_after_step. cbn [fst]. rewrite fmap_app.
  apply NoDup_app. split; [done|]. split.
  - intros s Hold Hnew.
    apply list_elem_of_fmap in Hold as (e & -> & He).
    apply list_elem_of_fmap in Hnew as (e' & Hs & He').
    unfold bos_emitted_at in He'. destruct (bars !! n); [|by apply elem_of_nil in He'].
    apply elem_of_bos_emitted in He' as (_ & _ & Hnot & _). apply Hnot.
    rewrite bos_broken_own, elem_of_list_to_set, <- Hs.
    apply list_elem_of_fmap. by exists e.
  - unfold bos_emitted_at. destruct (bars !! n); [|constructor].
    apply bos_emitted_NoDup.
Qed.


Lemma most_recent_unbroken_latest t swings broken i s s' :
  StronglySorted formed_no_later swings ->
  most_recent_unbroken t swings broken i = Some s ->
  s' ∈ swings -> swing_type s' = t -> bar_index s' < i ->
  bar_index s' ∉ broken ->
  bar_index s' <= bar_index s.
Proof.
  intros Hsorted Hlast Hin Ht Hi Hb.
  apply last_filter_Some in Hlast as (l1 & l2 & -> & Hl2).
  apply elem_of_app in Hin as [Hin|Hin].
  - eapply (StronglySorted_app_1_elem_of formed_no_later); eauto. left.
  - apply elem_of_cons in Hin as [->|Hin]; [done|].
    rewrite Forall_forall in Hl2. destruct (Hl2 _ Hin). done.
Qed.

(** C4. When [detect_bos] reaches bar [i], with [broken] the indices
    marked so far: the bar adds a bullish event exactly when its break
    price ([close] under [use_body], else [high]) is strictly above the
    price of the most recent unbroken swing high before [i], and a bearish
    event exactly when its break price ([close], else [low]) is strictly
    below the price of the most recent unbroken swing low before [i]; each
    is decided on the same [broken], so one bar may add both; the indices
    of the swings broken are added to [broken]. On swings listed in order
    of formation the swing chosen is the one with the greatest bar index
    among the eligible ones, whatever its price. *)
Theorem bos_bar_breaks_most_recent_unbroken self bars swings (i : nat) bar :
  swings ≠ [] -> (2 <= length bars)%nat -> bars !! i = Some bar ->
  let before := bos_state_after self swings bars i in
  let emitted :=
    bullish_break self swings before.2 (Z.of_nat i) bar
    ++ bearish_break self swings before.2 (Z.of_nat i) bar in
  bos_state_after self swings bars (S i)
  = (before.1 ++ emitted,
     before.2 ∪ list_to_set (bos_broken_index <$> emitted)) /\
  BOSDetector.detect_bos self bars swings
  = Ok (bos_state_after self swings bars (length bars)).1 /\
  (StronglySorted formed_no_later swings ->
   forall t s, most_recent_unbroken t swings before.2 (Z.of_nat i) = Some s ->
     swing_type s = t /\ bar_index s < Z.of_nat i /\ (bar_index s ∉ before.2) /\
     forall s', s' ∈ swings -> swing_type s' = t ->
       bar_index s' < Z.of_nat i -> bar_index s' ∉ before.2 ->
       bar_index s' <= bar_index s).
Proof.
  intros Hsw Hlen Hbar before emitted. split; [|split].
  - rewrite bos_state_after_step. unfold bos_emitted_at. rewrite Hbar.
    by rewrite bos_emitted_eq.
  - by apply detect_bos_state_after.
  - intros Hsorted t s Hs.
    pose proof (most_recent_unbroken_eligible _ _ _ _ _ Hs) as (_ & Ht & Hi & Hb).
    repeat split; try done.
    intros s' Hin Ht' Hi' Hb'. eapply most_recent_unbroken_latest; eauto.
Qed.

(** C10. The broken set of [detect_bos] holds bar indices. Once a bar
    emits an event that breaks a swing with bar index [k], every swing
    with bar index [k] -- also a co-indexed swing of the other type that
    was never broken -- is left out of [relevant_swings] at every later
    bar, and no later bar emits an event against it. The events of a run
    are the events its bars emit, in bar order. *)
Theorem bos_break_retires_bar_index self swings bars (i j : nat) e s :
  (i < j)%nat ->
  e ∈ bos_emitted_at self swings bars i ->
  bar_index s = bar_index (BOSEvent.broken_swing e) ->
  (s ∉ relevant_swings swings (bos_state_after self swings bars j).2 (Z.of_nat j)) /\
  (forall e', e' ∈ bos_emitted_at self swings bars j -> BOSEvent.broken_swing e' ≠ s) /\
  (swings ≠ [] -> (2 <= length bars)%nat ->
   BOSDetector.detect_bos self bars swings
   = Ok (seq 0 (length bars) ≫= bos_emitted_at self swings bars)).
Proof.
  intros Hij He Hs.
  assert (bar_index s ∈ (bos_state_after self swings bars j).2) as Hbroken.
  { apply (bos_broken_mono self swings bars (S i) j); [lia|].
    rewrite bos_state_after_step. cbn [snd]. apply elem_of_union_r.
    rewrite elem_of_list_to_set, Hs. apply list_elem_of_fmap. by exists e. }
  split; [|split].
  - unfold relevant_swings. rewrite list_elem_of_filter. tauto.
  - intros e' He' <-. unfold bos_emitted_at in He'.
    destruct (bars !! j); [|by apply elem_of_nil in He'].
    apply elem_of_bos_emitted in He' as (_ & _ & Hnot & _). done.
  - intros Hsw Hlen. rewrite detect_bos_state_after by done.
    by rewrite bos_events_concat.
Qed.



Lemma choch_inv_snoc events broken e :
  choch_inv (events, broken) ->
  choch_broken_index e ∉ broken ->
  choch_inv (events ++ [e], broken ∪ {[choch_broken_index e]}).
Proof.
  intros [Hnd Hown] Hnot. cbn [fst snd] in *. split; cbn [fst snd].
  - rewrite fmap_app. apply NoDup_app. split; [done|]. split; [|apply NoDup_singleton].
    intros s Hs ->%list_elem_of_singleton. apply Hnot.
    apply list_elem_of_fmap in Hs as (e' & Hs & He').
    rewrite Hown, elem_of_list_to_set. apply list_elem_of_fmap.
    exists e'. unfold choch_broken_index. by rewrite Hs.
  - rewrite fmap_app, list_to_set_app_L, <- Hown. cbn. set_unions.
Qed.

Lemma relevant_swings_last t swings broken i s :
  last (only t (relevant_swings swings broken i)) = Some s ->
  bar_index s ∉ broken.
Proof.
  rewrite most_recent_unbroken_relevant.
  intros Hs%most_recent_unbroken_eligible. tauto.
Qed.

Lemma choch_scan_bar_inv self swings trend_state i bar st :
  choch_inv st -> choch_inv (CHoCHDetector.scan_bar self swings trend_state i bar st).
Proof.
  destruct st as [events broken]. intros Hinv.
  unfold CHoCHDetector.scan_bar. cbn [fst snd].
  destruct (relevant_swings swings broken i) as [|r rs] eqn:Hrel; [done|].
  rewrite <- Hrel. clear Hrel.
  destruct trend_state; try done.
  - destruct (last (only LOW _)) as [s|] eqn:Hs; [|done].
    destruct (_ <? _); [|done].
    apply relevant_swings_last in Hs. by apply choch_inv_snoc.
  - destruct (last (only HIGH _)) as [s|] eqn:Hs; [|done].
    destruct (_ <? _); [|done].
    apply relevant_swings_last in Hs. by apply choch_inv_snoc.
Qed.

Lemma choch_scan_inv self swings trend_state i bars st :
  choch_inv st -> choch_inv (CHoCHDetector.scan self swings trend_state i bars st).
Proof.
  revert i st. induction bars as [|bar bars IH]; intros i st Hinv; [done|].
  cbn [CHoCHDetector.scan]. by apply IH, choch_scan_bar_inv.
Qed.

Lemma choch_inv_init : choch_inv ([], ∅).
Proof. split; [constructor|done]. Qed.

(** C6. In one [detect_bos] run no swing point is the [broken_swing] of two
    events, and likewise in one [detect_choch] run. Each run starts from an
    empty broken set of its own, which at every point of the scan holds the
    bar indices of the swings that run broke and nothing else; so a swing
    broken by one detector is still open to the other: on [shared_bars]
    both break [shared_low]. *)
Theorem each_swing_broken_at_most_once_per_detector :
  (forall bos bars swings, exists events,
     BOSDetector.detect_bos bos bars swings = Ok events /\
     NoDup (BOSEvent.broken_swing <$> events)) /\
  (forall ch bars swings trend_state, exists events,
     CHoCHDetector.detect_choch ch bars swings trend_state = Ok events /\
     NoDup (CHoCHEvent.broken_swing <$> events)) /\
  (forall bos swings bars n,
     (bos_state_after bos swings bars n).2
     = list_to_set (bos_broken_index <$> (bos_state_after bos swings bars n).1)) /\
  (forall ch swings trend_state bars n,
     (choch_state_after ch swings trend_state bars n).2
     = list_to_set (choch_broken_index <$>
                      (choch_state_after ch swings trend_state bars n).1)) /\
  (exists bos_events choch_events,
     BOSDetector.detect_bos (BOSDetector.mk true) shared_bars [shared_low]
       = Ok bos_events /\
     CHoCHDetector.detect_choch (CHoCHDetector.mk true) shared_bars [shared_low]
       TrendState.BULLISH = Ok choch_events /\
     shared_low ∈ BOSEvent.broken_swing <$> bos_events /\
     shared_low ∈ CHoCHEvent.broken_swing <$> choch_events).
Proof.
  split; [|split; [|split; [|split]]].
  - intros bos bars swings.
    destruct (decide (swings ≠ [] /\ (2 <= length bars)%nat)) as [[Hsw Hlen]|Hno].
    + rewrite detect_bos_state_after by done. eexists. split; [done|].
      apply bos_events_NoDup.
    + exists []. split; [|constructor]. unfold BOSDetector.detect_bos.
      destruct swings; [done|].
      destruct (Z.ltb_spec (Z.of_nat (length bars)) 2); [done|].
      destruct Hno. split; [done|lia].
  - intros ch bars swings trend_state. unfold CHoCHDetector.detect_choch.
    destruct trend_state; eexists; (split; [done|]);
      first [apply choch_scan_inv, choch_inv_init | constructor].
  - apply bos_broken_own.
  - intros. apply choch_scan_inv, choch_inv_init.
  - eexists _, _. split; [vm_compute; reflexivity|].
    split; [vm_compute; reflexivity|]. split; apply list_elem_of_here.
Qed.



(** C2, as the code has it. Only [detect_swings] validates the order of
    its bars: on a non-empty sequence whose timestamps are not strictly
    increasing it raises the sequencing error, returns no swings and leaves
    the detector untouched. [detect_bos] and [detect_choch] hold no such
    check and return a list of events for every bar sequence. *)
Theorem only_detect_swings_validates_time_order :
  (forall self, rejects_unordered_bars (fun bars => (detect_swings bars self).2)) /\
  (forall self bars, bars ≠ [] -> ¬ time_ordered bars ->
     (detect_swings bars self).1 = self) /\
  (forall bos bars swings, exists events,
     BOSDetector.detect_bos bos bars swings = Ok events) /\
  (forall ch bars swings trend_state, exists events,
     CHoCHDetector.detect_choch ch bars swings trend_state = Ok events).
Proof.
  split; [|split; [|split]].
  - intros self bars Hne Hno.
    destruct (detect_swings_unordered self bars Hne Hno) as [k ->]. by eexists.
  - intros self bars Hne Hno.
    by destruct (detect_swings_unordered self bars Hne Hno) as [k ->].
  - intros bos bars swings. unfold BOSDetector.detect_bos.
    destruct swings; [by eexists|].
    destruct (_ <? _); by eexists.
  - intros ch bars swings trend_state. unfold CHoCHDetector.detect_choch.
    destruct trend_state; by eexists.
Qed.

Lemma last_two_Some {A} (l : list A) a b :
  last_two l = Some (a, b) <-> exists pre, l = pre ++ [a; b].
Proof.
  unfold last_two. split.
  - destruct (reverse l) as [|y [|x r]] eqn:Hr; try done.
    intros [= <- <-]. exists (reverse r).
    rewrite <- (reverse_involutive l), Hr.
    by rewrite !reverse_cons, <- (assoc_L (++)).
  - intros [pre ->]. by rewrite reverse_app.
Qed.

Lemma last_two_rising_spec l :
  match last_two l with Some (a, b) => price a <? price b | None => false end = true
  <-> last_two_rising l.
Proof.
  unfold last_two_rising. split.
  - destruct (last_two l) as [[a b]|] eqn:Hl; [|done].
    intros Hlt%Z.ltb_lt. apply last_two_Some in Hl as [pre ->]. by exists pre, a, b.
  - intros (pre & a & b & -> & Hlt).
    rewrite (proj2 (last_two_Some (pre ++ [a; b]) a b)) by (by exists pre).
    by apply Z.ltb_lt.
Qed.

Lemma last_two_falling_spec l :
  match last_two l with Some (a, b) => price b <? price a | None => false end = true
  <-> last_two_falling l.
Proof.
  unfold last_two_falling. split.
  - destruct (last_two l) as [[a b]|] eqn:Hl; [|done].
    intros Hlt%Z.ltb_lt. apply last_two_Some in Hl as [pre ->]. by exists pre, a, b.
  - intros (pre & a & b & -> & Hlt).
    rewrite (proj2 (last_two_Some (pre ++ [a; b]) a b)) by (by exists pre).
    by apply Z.ltb_lt.
Qed.


Lemma analyze_structure_nonempty self swings :
  swings ≠ [] ->
  analyze_structure self swings
  = let highs := only HIGH swings in
    let lows := only LOW swings in
    let higher_highs_count := streak_count (fun p q => q <? p) highs in
    let lower_lows_count := streak_count (fun p q => p <? q) lows in
    mkStructureState
      (_determine_trend self highs lows higher_highs_count lower_lows_count)
      (last highs) (last lows) higher_highs_count lower_lows_count
      (timestamp <$> last swings).
Proof. by destruct swings. Qed.



(** ** The streak counters *)

(** One more swing [x] after [prev :: rest]: the run grows by one when [x]
    beats the swing before it, and falls back to zero otherwise. *)
Lemma streak_snoc better prev rest x count :
  streak better prev (rest ++ [x]) count
  = if better (price x) (price (default prev (last rest)))
    then streak better prev rest count + 1
    else 0.
Proof.
  revert prev count. induction rest as [|r rest IH]; intros prev count; [done|].
  cbn [app streak]. rewrite IH. destruct rest as [|s rest]; [done|].
  destruct (proj2 (last_is_Some (s :: rest)) ltac:(done)) as [z Hz].
  cbn [last] in *. by rewrite Hz.
Qed.

(** ** Worked instances *)

Example SwingDetector_init_5 : SwingDetector_init 5 = Ok detector5.
Proof. reflexivity. Qed.

Example detect_swings_peak :
  detect_swings peak_bars detector5
  = (mkSwingDetector 5 1 1 0, Ok [mkSwing 6 20 HIGH 5 5 10]).
Proof. vm_compute. reflexivity. Qed.

Example detect_swings_trough_after_peak :
  detect_swings trough_bars (mkSwingDetector 5 1 1 0)
  = (mkSwingDetector 5 2 1 1, Ok [mkSwing 26 10 LOW 5 5 10]).
Proof. vm_compute. reflexivity. Qed.

(** The wicks of bar 3 break the most recent high (15, not the older 20)
    and the most recent low in one step. *)
Example outside_bar_emits_both :
  bos_emitted_at (BOSDetector.mk false) outside_swings outside_bars 3
  = [BOSEvent.mk BOSDirection.BULLISH (mkSwing 3 15 HIGH 2 1 1) 16
       (mkBar 4 10 16 7 9) 4;
     BOSEvent.mk BOSDirection.BEARISH (mkSwing 3 8 LOW 2 1 2) 7
       (mkBar 4 10 16 7 9) 4].
Proof. vm_compute. reflexivity. Qed.

(** Bars 4 and 5 close below [retire_low], which was never broken; no
    event names it. *)
Example retire_run :
  BOSDetector.detect_bos (BOSDetector.mk true) retire_bars retire_swings
  = Ok [BOSEvent.mk BOSDirection.BULLISH retire_high 16 (mkBar 3 13 17 12 16) 3;
        BOSEvent.mk BOSDirection.BEARISH (mkSwing 4 12 LOW 3 1 1) 9
          (mkBar 5 14 14 8 9) 5].
Proof. vm_compute. reflexivity. Qed.

(** With [min_swings_for_trend = 1] a falling pair of highs and a rising
    pair of lows satisfy the bullish and the bearish test at once; the
    answer is BULLISH. *)
Example both_tests_hold_bullish_wins :
  let swings := [mkSwing 1 5 HIGH 1 1 1; mkSwing 2 1 LOW 2 1 1;
                 mkSwing 3 4 HIGH 3 1 1; mkSwing 4 2 LOW 4 1 1] in
  let st := analyze_structure (mkStructureAnalyzer 1) swings in
  trend st = TrendState.BULLISH /\
  1 - 1 <= lower_lows st /\ last_two_falling (only HIGH swings).
Proof.
  cbn zeta. split; [reflexivity|]. split; [vm_compute; discriminate|].
  exists [], (mkSwing 1 5 HIGH 1 1 1), (mkSwing 3 4 HIGH 3 1 1).
  split; [reflexivity | cbn; lia].
Qed.

(** C1 on [peak_bars]. *)
Lemma detect_swings_emits_exactly_the_swings_witness :
  exists swings,
    (detect_swings peak_bars detector5).2 = Ok swings /\
    forall i,
      ((exists s, s ∈ swings /\ swing_type s = HIGH /\ bar_index s = i)
       <-> swing_high_condition 5 peak_bars i) /\
      ((exists s, s ∈ swings /\ swing_type s = LOW /\ bar_index s = i)
       <-> swing_low_condition 5 peak_bars i).
Proof.
  apply (detect_swings_emits_exactly_the_swings detector5 peak_bars);
    [cbn; lia | by_evaluation | by_evaluation].
Defined.

(** C2: [detect_swings] on [unordered_bars]. *)
Lemma only_detect_swings_validates_time_order_witness :
  exists e, (detect_swings unordered_bars detector5).2 = Raise e /\
            is_sequencing_error e = true.
Proof.
  apply (proj1 only_detect_swings_validates_time_order detector5 unordered_bars);
    [done | by_evaluation].
Defined.

(** C2 as stated fails: [detect_bos] and [detect_choch] take
    [unordered_bars] and return. *)
Lemma bos_and_choch_accept_unordered_bars :
  ¬ rejects_unordered_bars
      (fun bars => BOSDetector.detect_bos (BOSDetector.mk true) bars [shared_low]) /\
  ¬ rejects_unordered_bars
      (fun bars => CHoCHDetector.detect_choch (CHoCHDetector.mk true) bars
                     [shared_low] TrendState.BULLISH).
Proof.
  split; intros Hrej;
    destruct (Hrej unordered_bars) as (e & He & _);
    [done | by_evaluation | vm_compute in He; discriminate
    |done | by_evaluation | vm_compute in He; discriminate].
Qed.


(** C4 on [outside_bars], at bar 3. *)
Lemma bos_bar_breaks_most_recent_unbroken_witness :
  let self := BOSDetector.mk false in
  let before := bos_state_after self outside_swings outside_bars 3 in
  let emitted :=
    bullish_break self outside_swings before.2 3 (mkBar 4 10 16 7 9)
    ++ bearish_break self outside_swings before.2 3 (mkBar 4 10 16 7 9) in
  bos_state_after self outside_swings outside_bars 4
  = (before.1 ++ emitted,
     before.2 ∪ list_to_set (bos_broken_index <$> emitted)).
Proof.
  exact (proj1 (bos_bar_breaks_most_recent_unbroken (BOSDetector.mk false)
    outside_bars outside_swings 3 (mkBar 4 10 16 7 9)
    ltac:(done) ltac:(cbn; lia) eq_refl)).
Defined.

(** C5: [SwingDetector(0)]. *)
Lemma constructors_parameter_checks_witness :
  exists e, SwingDetector_init 0 = Raise e /\ is_invalid_parameter e = true.
Proof. apply (proj1 constructors_parameter_checks 0). lia. Defined.

(** C5 as stated fails: [StructureAnalyzer(0)] is built. *)
Lemma structure_analyzer_accepts_any_minimum :
  ¬ rejects_below_one StructureAnalyzer_init.
Proof. intros Hrej. destruct (Hrej 0) as (e & He & _); [lia | discriminate]. Qed.

(** C7 on [peak_bars]. *)
Lemma detected_strength_counts_respecting_neighbours_witness :
  exists swings,
    (detect_swings peak_bars detector5).2 = Ok swings /\
    only HIGH swings = [mkSwing 6 20 HIGH 5 5 10].
Proof.
  destruct (detected_strength_counts_respecting_neighbours detector5 peak_bars)
    as (swings & Hrun & _ & Hpeak); [cbn; lia | by_evaluation | by_evaluation |].
  exists swings. split; [exact Hrun|].
  apply (Hpeak eq_refl eq_refl (mkBar 6 15 20 14 16) eq_refl).
  intros j b Hj Hb.
  do 11 (destruct j as [|j]; [simplify_eq/=; lia|]). done.
Defined.

(** C8: three bars, lookback 5. *)
Lemma detect_swings_too_few_bars_witness :
  detect_swings shared_bars detector5 = (detector5, Ok []).
Proof.
  apply (detect_swings_too_few_bars detector5 shared_bars);
    [by_evaluation | cbn; lia].
Defined.

(** C9 on [peak_bars], then [trough_bars]. *)
Lemma statistics_accumulate_until_reset_witness :
  exists d1 swings1 d2 swings2,
    detect_swings peak_bars detector5 = (d1, Ok swings1) /\
    detect_swings trough_bars d1 = (d2, Ok swings2) /\
    get_statistics d2
    = (5,
       Z.of_nat (length swings1) + Z.of_nat (length swings2),
       Z.of_nat (length (only HIGH swings1)) + Z.of_nat (length (only HIGH swings2)),
       Z.of_nat (length (only LOW swings1)) + Z.of_nat (length (only LOW swings2))) /\
    get_statistics (reset_statistics d2) = (5, 0, 0, 0) /\
    exists d2',
      detect_swings trough_bars (reset_statistics d1) = (d2', Ok swings2) /\
      get_statistics d2' = statistics_of 5 swings2.
Proof.
  apply (statistics_accumulate_until_reset 5 detector5 peak_bars trough_bars);
    [reflexivity | by_evaluation | by_evaluation | by_evaluation | by_evaluation].
Defined.

(** C9 as stated fails: after the peak scan and the trough scan the
    detector reports two swings, the second scan found one. *)
Lemma statistics_span_both_calls :
  ¬ statistics_call_scoped detector5 peak_bars trough_bars.
Proof.
  intros Hscoped.
  specialize (Hscoped _ _ _ _ detect_swings_peak detect_swings_trough_after_peak).
  vm_compute in Hscoped. discriminate.
Qed.

(** C10 on [retire_bars]: bar 2 breaks [retire_high]; at bar 4, which
    closes below [retire_low], that swing is not eligible. *)
Lemma bos_break_retires_bar_index_witness :
  let self := BOSDetector.mk true in
  (retire_low ∉ relevant_swings retire_swings
                  (bos_state_after self retire_swings retire_bars 4).2 4) /\
  forall e', e' ∈ bos_emitted_at self retire_swings retire_bars 4 ->
    BOSEvent.broken_swing e' ≠ retire_low.
Proof.
  refine (let H := _ in conj (proj1 H) (proj1 (proj2 H))).
  apply (bos_break_retires_bar_index (BOSDetector.mk true) retire_swings
           retire_bars 2 4
           (BOSEvent.mk BOSDirection.BULLISH retire_high 16 (mkBar 3 13 17 12 16) 3)
           retire_low);
    [lia | by_evaluation | reflexivity].
Defined.

(** * Further properties of the swing detector *)

Lemma SwingPoint_init_Ok ts p t i lb str s :
  SwingPoint_init ts p t i lb str = Ok s ->
  s = mkSwing ts p t i lb str /\ 0 < p /\ 1 <= lb /\ 0 <= i.
Proof.
  unfold SwingPoint_init.
  destruct (Z.leb_spec p 0); [done|].
  destruct (Z.ltb_spec lb 1); [done|].
  destruct (Z.ltb_spec i 0); [done|].
  intros [= <-]. repeat split; lia.
Qed.

Lemma count_swing_tally t s self :
  swing_type s = t -> count_swing t self = (tally [s] self, Ok tt).
Proof.
  intros <-. unfold count_swing, tally.
  destruct s as [ts p [] i lb str]; cbn; f_equal; f_equal;
    rewrite ?decide_False by done; cbn; lia.
Qed.

(** Whatever happens in one check, the detector only counts. *)
Lemma check_swing_counts t bars i swings self :
  exists counted r, check_swing t bars i swings self = (tally counted self, r).
Proof.
  unfold check_swing, mbind, Method_bind, this, lift.
  destruct (match t with HIGH => _ | LOW => _ end) as [[|]|e].
  - destruct (py_index bars i) as [b|e]; [|exists [], (Raise e); by rewrite tally_nil].
    destruct (_calculate_strength self bars i t) as [str|e];
      [|exists [], (Raise e); by rewrite tally_nil].
    destruct (SwingPoint_init _ _ _ _ _ _) as [s|e] eqn:Hs;
      [|exists [], (Raise e); by rewrite tally_nil].
    apply SwingPoint_init_Ok in Hs as [-> _].
    match goal with
    | |- context [swings ++ [?s]] => rewrite (count_swing_tally t s) by reflexivity
    end.
    eexists [_], _. reflexivity.
  - exists [], (Ok swings). by rewrite tally_nil.
  - exists [], (Raise e). by rewrite tally_nil.
Qed.

Lemma detect_swings_loop_counts bars idxs swings self :
  exists counted r,
    detect_swings_loop bars idxs swings self = (tally counted self, r).
Proof.
  revert swings self. induction idxs as [|i idxs IH]; intros swings self.
  { exists [], (Ok swings). by rewrite tally_nil. }
  cbn [detect_swings_loop]. unfold mbind at 1, Method_bind at 1.
  destruct (check_swing_counts HIGH bars i swings self) as (c1 & r1 & ->).
  destruct r1 as [swings1|e]; [|by exists c1, (Raise e)].
  unfold mbind at 1, Method_bind at 1.
  destruct (check_swing_counts LOW bars i swings1 (tally c1 self)) as (c2 & r2 & ->).
  rewrite <- tally_app.
  destruct r2 as [swings2|e]; [|by exists (c1 ++ c2), (Raise e)].
  destruct (IH swings2 (tally (c1 ++ c2) self)) as (c3 & r3 & ->).
  rewrite <- tally_app. by eexists _, _.
Qed.

Lemma detect_swings_counts bars self :
  exists counted r, detect_swings bars self = (tally counted self, r).
Proof.
  unfold detect_swings. destruct bars as [|b0 bars0] eqn:Hbars.
  { exists [], (Ok []). by rewrite tally_nil. }
  rewrite <- Hbars. clear Hbars.
  unfold mbind, Method_bind, lift, this.
  destruct (_validate_bar_sequence bars) as [[]|e];
    [|exists [], (Raise e); by rewrite tally_nil].
  destruct (_ <? _); [exists [], (Ok []); by rewrite tally_nil|].
  destruct (detect_swings_loop_counts bars
              (py_range (lookback self) (Z.of_nat (length bars) - lookback self))
              [] self) as (c & r & ->).
  destruct r as [swings|e]; by eexists _, _.
Qed.

Lemma length_only_split (l : list SwingPoint) :
  length l = (length (only HIGH l) + length (only LOW l))%nat.
Proof.
  unfold only. induction l as [|s l IH]; [done|].
  rewrite !filter_cons.
  destruct (swing_type s); repeat case_decide; try done; cbn; lia.
Qed.

(** X1. every call of [detect_swings], whether it returns or raises, keeps
    the lookback, never lowers a counter, and keeps the total counter equal
    to the sum of the high and low counters when it was so before. *)
Theorem detect_swings_keeps_counters_consistent bars self self' r :
  detect_swings bars self = (self', r) ->
  lookback self' = lookback self /\
  swings_detected self <= swings_detected self' /\
  highs_detected self <= highs_detected self' /\
  lows_detected self <= lows_detected self' /\
  (counters_consistent self -> counters_consistent self').
Proof.
  destruct (detect_swings_counts bars self) as (c & r' & ->). intros [= <- _].
  unfold counters_consistent. cbn.
  pose proof (length_only_split c). lia.
Qed.

Lemma detect_swings_keeps_counters_consistent_witness :
  counters_consistent (mkSwingDetector 5 1 1 0).
Proof.
  apply (detect_swings_keeps_counters_consistent peak_bars detector5
           (mkSwingDetector 5 1 1 0) (Ok [mkSwing 6 20 HIGH 5 5 10]));
    [vm_compute; reflexivity | reflexivity].
Defined.

Lemma check_swing_returns t bars i swings self self' swings' :
  1 <= lookback self ->
  lookback self <= i < Z.of_nat (length bars) - lookback self ->
  check_swing t bars i swings self = (self', Ok swings') ->
  swings' = swings ++ found_at t (lookback self) bars i /\
  self' = tally (found_at t (lookback self) bars i) self /\
  Forall (fun s => 0 < price s) (found_at t (lookback self) bars i).
Proof.
  intros Hlb Hi. unfold check_swing, found_at, mbind, Method_bind, this, lift.
  rewrite is_swing_method_ok by lia.
  destruct (is_swing t (lookback self) bars i).
  - rewrite py_index_bar_at by lia. rewrite strength_method_ok by lia.
    replace (match t with HIGH => high (bar_at bars i) | LOW => low (bar_at bars i) end)
      with (extreme t (bar_at bars i)) by (by destruct t).
    destruct (SwingPoint_init _ _ _ _ _ _) as [s|e] eqn:Hs; [|done].
    apply SwingPoint_init_Ok in Hs as (-> & Hpos & _).
    rewrite (count_swing_tally t (swing_of t (lookback self) bars i)) by done.
    intros [= <- <-]. repeat split. by apply Forall_singleton.
  - intros [= <- <-]. rewrite tally_nil, app_nil_r. repeat split. constructor.
Qed.

Lemma detect_swings_loop_returns bars idxs swings self self' swings' :
  1 <= lookback self ->
  Forall (fun i => lookback self <= i < Z.of_nat (length bars) - lookback self) idxs ->
  detect_swings_loop bars idxs swings self = (self', Ok swings') ->
  swings' = swings ++ (idxs ≫= swings_at (lookback self) bars) /\
  self' = tally (idxs ≫= swings_at (lookback self) bars) self /\
  Forall (fun s => 0 < price s) (idxs ≫= swings_at (lookback self) bars).
Proof.
  intros Hlb Hidxs. revert swings self Hlb Hidxs.
  induction idxs as [|i idxs IH]; intros swings self Hlb Hidxs.
  { cbn. intros [= <- <-]. rewrite tally_nil, app_nil_r. repeat split. constructor. }
  apply Forall_cons in Hidxs as [Hi Hidxs].
  cbn [detect_swings_loop]. unfold mbind at 1, Method_bind at 1.
  destruct (check_swing HIGH bars i swings self) as [self1 [swings1|e]] eqn:H1; [|done].
  apply check_swing_returns in H1 as (-> & -> & Hp1); [|done|done].
  unfold mbind at 1, Method_bind at 1.
  destruct (check_swing LOW bars i _ _) as [self2 [swings2|e]] eqn:H2; [|done].
  apply check_swing_returns in H2 as (-> & -> & Hp2); [|done|done].
  rewrite lookback_tally in *. intros Hrest.
  apply IH in Hrest as (-> & -> & Hp3); [|done|done].
  rewrite !lookback_tally in *. rewrite bind_cons.
  change (swings_at (lookback self) bars i)
    with (found_at HIGH (lookback self) bars i ++ found_at LOW (lookback self) bars i).
  rewrite !tally_app, <- !(assoc_L (++)). repeat split.
  rewrite !Forall_app. done.
Qed.

(** What a returning [detect_swings] call has done: the bars passed the
    order check, the list is the expected one and the counters have grown
    by it. *)
Lemma detect_swings_returns bars self self' swings :
  1 <= lookback self ->
  detect_swings bars self = (self', Ok swings) ->
  time_ordered bars /\
  swings = expected_swings (lookback self) bars /\
  self' = tally swings self /\
  Forall (fun s => 0 < price s) swings.
Proof.
  intros Hlb. unfold expected_swings, detect_swings.
  destruct bars as [|b0 bars0] eqn:Hbars.
  { intros [= <- <-]. rewrite py_range_nil by (cbn; lia).
    rewrite tally_nil. repeat split; constructor. }
  rewrite <- Hbars. clear Hbars.
  unfold _validate_bar_sequence, mbind, Method_bind, lift, this.
  destruct (decide (time_ordered bars)) as [Hord|Hno].
  2:{ by destruct (validate_from_unordered 0 bars Hno) as [k ->]. }
  rewrite validate_from_ordered by done.
  destruct (Z.ltb_spec (Z.of_nat (length bars)) (lookback self * 2 + 1)).
  { intros [= <- <-]. rewrite py_range_nil by lia. rewrite tally_nil.
    repeat split; [done|constructor]. }
  destruct (detect_swings_loop _ _ _ _) as [self1 [swings1|e]] eqn:Hloop; [|done].
  apply detect_swings_loop_returns in Hloop as (-> & -> & Hpos); [|done|].
  2:{ apply Forall_forall. intros i Hi%elem_of_py_range. lia. }
  cbn. rewrite sort_by_timestamp_sorted.
  - by intros [= <- <-].
  - apply emitted_sorted; [done|apply py_range_sorted|].
    apply Forall_forall. intros i Hi%elem_of_py_range. unfold in_bars. lia.
Qed.

(** X2. every swing point [detect_swings] returns describes a confirmed bar:
    its index has [lookback] bars on both sides (so the last [lookback]
    bars are never reported), its timestamp is the bar's, its price is the
    bar's high or low, and its lookback is the detector's. *)
Theorem detected_swing_describes_a_confirmed_bar bars self self' swings s :
  1 <= lookback self ->
  detect_swings bars self = (self', Ok swings) ->
  s ∈ swings ->
  lookback self <= bar_index s < Z.of_nat (length bars) - lookback self /\
  sp_lookback s = lookback self /\
  exists b, bars !! Z.to_nat (bar_index s) = Some b /\
    timestamp s = timestamp_utc b /\
    price s = match swing_type s with HIGH => high b | LOW => low b end /\
    0 < price s.
Proof.
  intros Hlb Hrun Hs.
  pose proof Hrun as Hcounts.
  apply detect_swings_returns in Hrun as (_ & -> & _ & Hpos); [|done].
  rewrite Forall_forall in Hpos. specialize (Hpos s Hs).
  apply elem_of_expected_swings in Hs as (Hi & Hsw & Heq).
  split; [done|]. split; [by rewrite Heq|].
  exists (bar_at bars (bar_index s)).
  split; [apply lookup_bar_at; unfold in_bars; lia|].
  split; [by rewrite Heq at 1|].
  assert (price s = extreme (swing_type s) (bar_at bars (bar_index s))) as Hp
    by (by rewrite Heq at 1).
  split; [rewrite Hp; by destruct (swing_type s)|done].
Qed.

Lemma is_swing_left_all_worse t lb bars i :
  0 <= lb -> lb <= i < Z.of_nat (length bars) - lb ->
  is_swing t lb bars i = true ->
  Forall (fun b => worse t (extreme t b) (extreme t (bar_at bars i)))
    (take (Z.to_nat lb) (drop (Z.to_nat (i - lb)) bars)).
Proof.
  intros Hlb Hi [Hleft _]%is_swing_spec.
  replace i with ((i - lb) + Z.of_nat (Z.to_nat lb)) in Hleft at 2 by lia.
  rewrite <- bar_at_py_range by lia. rewrite Forall_fmap.
  apply Forall_forall. intros j Hj%elem_of_py_range. apply Hleft. lia.
Qed.

(** X3. the strength of a returned swing point lies between [lookback] and
    [2 * lookback]: the bars before the swing always count, the bars after
    it count unless they tie. *)
Theorem detected_strength_bounds bars self self' swings s :
  1 <= lookback self ->
  detect_swings bars self = (self', Ok swings) ->
  s ∈ swings ->
  lookback self <= strength s <= 2 * lookback self.
Proof.
  intros Hlb Hrun Hs.
  apply detect_swings_returns in Hrun as (_ & -> & _); [|done].
  apply elem_of_expected_swings in Hs as (Hi & Hsw & Heq).
  assert (0 <= lookback self) as Hlb0 by lia.
  assert (strength s
          = strength_of (swing_type s) (lookback self) bars (bar_index s)) as ->
    by (by rewrite Heq at 1).
  rewrite strength_of_neighbours by lia.
  pose proof (length_neighbours (lookback self) bars (bar_index s) Hlb0 Hi) as Hlen.
  split.
  - unfold neighbours. rewrite filter_app, length_app.
    rewrite (filter_all _ _
      (is_swing_left_all_worse (swing_type s) (lookback self) bars (bar_index s)
         Hlb0 Hi Hsw)).
    rewrite length_take, length_drop. lia.
  - rewrite <- Hlen. apply inj_le, length_filter.
Qed.

Lemma detected_strength_bounds_witness : 5 <= 10 <= 2 * 5.
Proof.
  apply (detected_strength_bounds peak_bars detector5 (mkSwingDetector 5 1 1 0)
           [mkSwing 6 20 HIGH 5 5 10] (mkSwing 6 20 HIGH 5 5 10));
    [cbn; lia | vm_compute; reflexivity | by_evaluation].
Defined.

(** X4. two returned swing points of the same type are more than [lookback]
    bars apart. *)
Theorem same_type_swings_are_spaced bars self self' swings s1 s2 :
  1 <= lookback self ->
  detect_swings bars self = (self', Ok swings) ->
  s1 ∈ swings -> s2 ∈ swings ->
  swing_type s1 = swing_type s2 ->
  bar_index s1 < bar_index s2 ->
  lookback self < bar_index s2 - bar_index s1.
Proof.
  intros Hlb Hrun Hs1 Hs2 Ht Hlt.
  apply detect_swings_returns in Hrun as (_ & -> & _); [|done].
  apply elem_of_expected_swings in Hs1 as (Hi1 & Hsw1 & _).
  apply elem_of_expected_swings in Hs2 as (Hi2 & Hsw2 & _).
  destruct (Z.lt_ge_cases (lookback self) (bar_index s2 - bar_index s1))
    as [|Hnear]; [done|exfalso].
  apply is_swing_spec in Hsw1 as [_ Hright].
  apply is_swing_spec in Hsw2 as [Hleft _].
  specialize (Hright (bar_index s2) ltac:(lia)).
  specialize (Hleft (bar_index s1) ltac:(lia)).
  rewrite <- Ht in Hleft. destruct (swing_type s1); cbn in *; lia.
Qed.

(** The two peaks of [twin_peak_bars], at bars 5 and 11. *)
Lemma same_type_swings_are_spaced_witness : 5 < 11 - 5.
Proof.
  apply (same_type_swings_are_spaced twin_peak_bars detector5
           (mkSwingDetector 5 3 2 1)
           [mkSwing 6 20 HIGH 5 5 10; mkSwing 11 9 LOW 10 5 10;
            mkSwing 12 21 HIGH 11 5 10]
           (mkSwing 6 20 HIGH 5 5 10) (mkSwing 12 21 HIGH 11 5 10));
    [cbn; lia | vm_compute; reflexivity | by_evaluation | by_evaluation
    | reflexivity | cbn; lia].
Defined.

Lemma formed_sorted lb bars idxs :
  StronglySorted Z.le idxs ->
  StronglySorted formed_no_later (idxs ≫= swings_at lb bars).
Proof.
  induction 1 as [|i idxs Hs IH Hall]; [constructor|].
  rewrite bind_cons. apply StronglySorted_app_2; [| |done].
  - intros s1 s2 [H1 _]%elem_of_swings_at Hin.
    apply list_elem_of_bind in Hin as (j & [H2 _]%elem_of_swings_at & Hj).
    unfold formed_no_later. rewrite H1, H2.
    rewrite Forall_forall in Hall. by apply Hall.
  - unfold swings_at.
    destruct (is_swing HIGH lb bars i), (is_swing LOW lb bars i); cbn;
      repeat constructor. unfold formed_no_later. cbn. lia.
Qed.

Lemma expected_swings_slot lb bars s1 s2 :
  s1 ∈ expected_swings lb bars -> s2 ∈ expected_swings lb bars ->
  same_swing_slot s1 s2 -> s1 = s2.
Proof.
  intros (_ & _ & H1)%elem_of_expected_swings (_ & _ & H2)%elem_of_expected_swings.
  intros [Ht Hi]. rewrite H1, H2, Ht, Hi. done.
Qed.

Lemma expected_swings_NoDup lb bars : NoDup (expected_swings lb bars).
Proof.
  unfold expected_swings. apply NoDup_bind.
  - intros i1 i2 s _ _ [H1 _]%elem_of_swings_at [H2 _]%elem_of_swings_at. congruence.
  - intros i _. unfold swings_at.
    destruct (is_swing HIGH lb bars i), (is_swing LOW lb bars i); cbn;
      repeat constructor; try (by intros ?%elem_of_nil).
    by intros [=]%list_elem_of_singleton.
  - unfold py_range. apply NoDup_fmap_2; [|apply NoDup_seq].
    intros k1 k2. lia.
Qed.

(** X5. the list [detect_swings] returns is in order of formation (bar
    index, and so timestamp, never decreases along it), holds no point
    twice and holds at most one point per bar and type. It can therefore be
    handed to [detect_bos] as a list in formation order. *)
Theorem detected_swings_in_formation_order bars self self' swings :
  1 <= lookback self ->
  detect_swings bars self = (self', Ok swings) ->
  StronglySorted formed_no_later swings /\
  StronglySorted not_after swings /\
  NoDup swings /\
  (forall s1 s2, s1 ∈ swings -> s2 ∈ swings -> same_swing_slot s1 s2 -> s1 = s2).
Proof.
  intros Hlb Hrun.
  apply detect_swings_returns in Hrun as (Hord & -> & _); [|done].
  split; [apply formed_sorted, py_range_sorted|].
  split.
  { apply emitted_sorted; [done|apply py_range_sorted|].
    apply Forall_forall. intros i Hi%elem_of_py_range. unfold in_bars. lia. }
  split; [apply expected_swings_NoDup|].
  intros s1 s2. apply expected_swings_slot.
Qed.

Lemma detected_swings_in_formation_order_witness :
  StronglySorted formed_no_later
    [mkSwing 6 20 HIGH 5 5 10; mkSwing 11 9 LOW 10 5 10; mkSwing 12 21 HIGH 11 5 10].
Proof.
  apply (detected_swings_in_formation_order twin_peak_bars detector5
           (mkSwingDetector 5 3 2 1));
    [cbn; lia | vm_compute; reflexivity].
Defined.

Lemma bar_at_app_l bars more j :
  in_bars bars j -> bar_at (bars ++ more) j = bar_at bars j.
Proof.
  intros Hj. unfold bar_at, in_bars in *.
  apply lookup_total_app_l. lia.
Qed.

Lemma swings_at_app_l lb bars more i :
  0 <= lb -> lb <= i < Z.of_nat (length bars) - lb ->
  swings_at lb (bars ++ more) i = swings_at lb bars i.
Proof.
  intros Hlb Hi.
  assert (forall j, i - lb <= j < i + lb + 1 ->
            bar_at (bars ++ more) j = bar_at bars j) as Hbar
    by (intros; apply bar_at_app_l; unfold in_bars; lia).
  assert (forall t, is_swing t lb (bars ++ more) i = is_swing t lb bars i) as Hsw.
  { intros t. unfold is_swing. rewrite (Hbar i) by lia.
    apply (f_equal2 andb); apply forallb_ext_in;
      intros j Hj%elem_of_py_range; rewrite Hbar by lia; done. }
  assert (forall t, swing_of t lb (bars ++ more) i = swing_of t lb bars i) as Hof.
  { intros t. unfold swing_of, strength_of. rewrite (Hbar i) by lia.
    apply f_equal, f_equal, f_equal.
    apply filter_ext_in. intros j Hj%elem_of_py_range. rewrite Hbar by lia. done. }
  unfold swings_at. by rewrite !Hsw, !Hof.
Qed.

Lemma bind_ext_in {A B} (f g : A -> list B) (l : list A) :
  (forall x, x ∈ l -> f x = g x) -> l ≫= f = l ≫= g.
Proof.
  induction l as [|x l IH]; intros Hfg; [done|].
  rewrite !bind_cons, Hfg by left. f_equal. apply IH.
  intros y Hy. apply Hfg. by right.
Qed.

Lemma expected_swings_app lb bars more :
  1 <= lb ->
  expected_swings lb bars `prefix_of` expected_swings lb (bars ++ more).
Proof.
  intros Hlb. unfold expected_swings. rewrite length_app, Nat2Z.inj_add.
  destruct (Z.le_gt_cases lb (Z.of_nat (length bars) - lb)) as [Hge|Hlt].
  - rewrite (py_range_app lb (Z.of_nat (length bars) - lb)
               (Z.of_nat (length bars) + Z.of_nat (length more) - lb)) by lia.
    rewrite bind_app. eexists. f_equal.
    apply bind_ext_in. intros i Hi%elem_of_py_range.
    rewrite swings_at_app_l by lia. done.
  - rewrite (py_range_nil lb (Z.of_nat (length bars) - lb)) by lia.
    apply prefix_nil.
Qed.

(** X6. no repainting. When more bars arrive, the swing points reported for
    the shorter sequence are reported again, unchanged and in the same
    places, at the head of the new list. *)
Theorem detected_swings_survive_new_bars bars more self self1 swings1 self2 swings2 :
  1 <= lookback self ->
  detect_swings bars self = (self1, Ok swings1) ->
  detect_swings (bars ++ more) self = (self2, Ok swings2) ->
  swings1 `prefix_of` swings2.
Proof.
  intros Hlb H1 H2.
  apply detect_swings_returns in H1 as (_ & -> & _); [|done].
  apply detect_swings_returns in H2 as (_ & -> & _); [|done].
  by apply expected_swings_app.
Qed.

Lemma detected_swings_survive_new_bars_witness :
  [mkSwing 6 20 HIGH 5 5 10]
  `prefix_of` [mkSwing 6 20 HIGH 5 5 10; mkSwing 11 9 LOW 10 5 10;
               mkSwing 12 21 HIGH 11 5 10].
Proof.
  apply (detected_swings_survive_new_bars peak_bars
           [mkBar 12 11 21 10 12; mkBar 13 11 13 10 12; mkBar 14 11 13 10 12;
            mkBar 15 11 13 10 12; mkBar 16 11 13 10 12; mkBar 17 11 13 10 12]
           detector5 (mkSwingDetector 5 1 1 0) _ (mkSwingDetector 5 3 2 1));
    [cbn; lia | vm_compute; reflexivity | vm_compute; reflexivity].
Defined.

(** * Further properties of the structure analyzer *)

Lemma last_only_latest t swings s s' :
  StronglySorted formed_no_later swings ->
  last (only t swings) = Some s ->
  s' ∈ swings -> swing_type s' = t ->
  bar_index s' <= bar_index s.
Proof.
  intros Hsorted Hlast Hin Ht. unfold only in Hlast.
  apply last_filter_Some in Hlast as (l1 & l2 & -> & Hl2).
  apply elem_of_app in Hin as [Hin|Hin].
  - eapply (StronglySorted_app_1_elem_of formed_no_later); eauto. left.
  - apply elem_of_cons in Hin as [->|Hin]; [done|].
    rewrite Forall_forall in Hl2. destruct (Hl2 _ Hin). done.
Qed.

Lemma last_only_spec t swings :
  (last (only t swings) = None <-> forall s, s ∈ swings -> swing_type s ≠ t) /\
  (forall s, last (only t swings) = Some s ->
     s ∈ swings /\ swing_type s = t /\
     (StronglySorted formed_no_later swings ->
      forall s', s' ∈ swings -> swing_type s' = t -> bar_index s' <= bar_index s)).
Proof.
  split.
  - rewrite last_None. unfold only. split.
    + intros Hnil s Hs Ht.
      assert (s ∈ filter (fun s => swing_type s = t) swings) as Hin
        by (by apply list_elem_of_filter).
      rewrite Hnil in Hin. by apply elem_of_nil in Hin.
    + intros Hnone. apply elem_of_nil_inv. intros s [Ht Hs]%list_elem_of_filter.
      by apply (Hnone s).
  - intros s Hlast.
    pose proof (last_Some_elem_of _ _ Hlast) as [Ht Hs]%list_elem_of_filter.
    split; [done|]. split; [done|].
    intros Hsorted s' Hs' Ht'. by eapply last_only_latest.
Qed.

(** X7. [get_last_swing_high] answers [None] exactly when the list holds no
    HIGH point; otherwise it answers a HIGH point of the list, the one with
    the greatest bar index when the list is in formation order.
    [get_last_swing_low] is the same for LOW points. The
    [last_swing_high] and [last_swing_low] of [analyze_structure] are these
    two answers. *)
Theorem get_last_swing_is_the_latest self analyzer swings :
  let answers t :=
    match t with
    | HIGH => get_last_swing_high self swings
    | LOW => get_last_swing_low self swings
    end in
  (forall t,
     (answers t = None <-> forall s, s ∈ swings -> swing_type s ≠ t) /\
     (forall s, answers t = Some s ->
        s ∈ swings /\ swing_type s = t /\
        (StronglySorted formed_no_later swings ->
         forall s', s' ∈ swings -> swing_type s' = t ->
           bar_index s' <= bar_index s))) /\
  last_swing_high (analyze_structure analyzer swings) = answers HIGH /\
  last_swing_low (analyze_structure analyzer swings) = answers LOW.
Proof.
  cbn zeta. split; [|by destruct swings].
  intros []; apply last_only_spec.
Qed.

Lemma get_last_swing_is_the_latest_witness :
  bar_index (mkSwing 2 15 HIGH 2 1 2) <= bar_index (mkSwing 8 18 HIGH 8 1 2).
Proof.
  destruct (get_last_swing_is_the_latest detector5 (mkStructureAnalyzer 2)
              rising_swings) as [Hspec _].
  destruct (Hspec HIGH) as [_ Hsome].
  destruct (Hsome (mkSwing 8 18 HIGH 8 1 2) eq_refl) as (_ & _ & Hlatest).
  apply Hlatest; [by_evaluation | by_evaluation | reflexivity].
Defined.

(** ** The streak counters *)

Lemma streak_bounds better prev rest count :
  0 <= count ->
  0 <= streak better prev rest count <= count + Z.of_nat (length rest).
Proof.
  revert prev count. induction rest as [|s rest IH]; intros prev count Hc.
  { cbn. lia. }
  cbn [streak length].
  destruct (better (price s) (price prev)).
  - specialize (IH s (count + 1) ltac:(lia)). lia.
  - specialize (IH s 0 ltac:(lia)). lia.
Qed.

Lemma streak_count_bounds better l :
  0 <= streak_count better l <= Z.max 0 (Z.of_nat (length l) - 1).
Proof.
  destruct l as [|s l]; [cbn; lia|]. cbn [streak_count length].
  pose proof (streak_bounds better s l 0 ltac:(lia)). lia.
Qed.

Lemma streak_count_snoc better l a x :
  streak_count better (l ++ [a; x])
  = if better (price x) (price a)
    then streak_count better (l ++ [a]) + 1
    else 0.
Proof.
  destruct l as [|h0 l]; [cbn; by destruct (better _ _)|].
  cbn [app streak_count].
  replace (l ++ [a; x]) with ((l ++ [a]) ++ [x]) by (by rewrite <- (assoc_L (++))).
  by rewrite streak_snoc, last_snoc.
Qed.

Lemma last_two_None {A} (l : list A) :
  last_two l = None -> (length l < 2)%nat.
Proof.
  unfold last_two. rewrite <- (length_reverse l).
  destruct (reverse l) as [|y [|x r]]; cbn; (done || lia).
Qed.

Lemma streak_count_positive better l :
  0 < streak_count better l <->
  exists pre a b, l = pre ++ [a; b] /\ better (price b) (price a) = true.
Proof.
  destruct (last_two l) as [[a b]|] eqn:Hl.
  - apply last_two_Some in Hl as [pre ->]. rewrite streak_count_snoc.
    pose proof (streak_count_bounds better (pre ++ [a])).
    split.
    + destruct (better (price b) (price a)) eqn:Hb; [|lia]. by exists pre, a, b.
    + intros (pre' & a' & b' & Heq & Hb).
      change [a; b] with ([a] ++ [b]) in Heq.
      change [a'; b'] with ([a'] ++ [b']) in Heq.
      rewrite !(assoc_L (++)) in Heq.
      apply app_inj_tail in Heq as [Heq <-].
      apply app_inj_tail in Heq as [_ <-].
      rewrite Hb. lia.
  - apply last_two_None in Hl. split.
    + destruct l as [|s [|s' l]]; cbn in *; lia.
    + intros (pre & a & b & -> & _). rewrite length_app in Hl. cbn in Hl. lia.
Qed.

(** X8. the two streak counters of [analyze_structure] are runs that end at
    the latest swing: each lies between 0 and the number of swings of its
    type minus one, [higher_highs] is positive exactly when the last two
    highs rise, and [lower_lows] is positive exactly when the last two lows
    fall; any other last step puts the counter back to 0. *)
Theorem streak_counters_end_at_latest_swing self swings :
  let st := analyze_structure self swings in
  0 <= higher_highs st <= Z.max 0 (Z.of_nat (length (only HIGH swings)) - 1) /\
  0 <= lower_lows st <= Z.max 0 (Z.of_nat (length (only LOW swings)) - 1) /\
  (0 < higher_highs st <-> last_two_rising (only HIGH swings)) /\
  (0 < lower_lows st <-> last_two_falling (only LOW swings)).
Proof.
  cbn zeta. destruct swings as [|s0 swings0] eqn:Hsw.
  { cbn. repeat split; try lia; intros (pre & a & b & Heq & _);
      by destruct pre. }
  rewrite <- Hsw. rewrite analyze_structure_nonempty by (by rewrite Hsw).
  cbn [higher_highs lower_lows].
  split; [apply streak_count_bounds|]. split; [apply streak_count_bounds|].
  unfold last_two_rising, last_two_falling.
  rewrite !streak_count_positive.
  split; split; intros (pre & a & b & Heq & Hb); exists pre, a, b;
    (split; [done|]); by apply Z.ltb_lt.
Qed.

Lemma rising_not_falling l : last_two_rising l -> last_two_falling l -> False.
Proof.
  intros (pre & a & b & -> & Hab) (pre' & a' & b' & Heq & Hba).
  change [a; b] with ([a] ++ [b]) in Heq.
  change [a'; b'] with ([a'] ++ [b']) in Heq.
  rewrite !(assoc_L (++)) in Heq.
  apply app_inj_tail in Heq as [Heq <-].
  apply app_inj_tail in Heq as [_ <-]. lia.
Qed.

Lemma determine_trend_iff self highs lows hh ll :
  let enough :=
    min_swings_for_trend self <= Z.of_nat (length highs) /\
    min_swings_for_trend self <= Z.of_nat (length lows) in
  let bullish := min_swings_for_trend self - 1 <= hh /\ last_two_rising lows in
  let bearish := min_swings_for_trend self - 1 <= ll /\ last_two_falling highs in
  let result := _determine_trend self highs lows hh ll in
  (result = TrendState.UNKNOWN <-> ¬ enough) /\
  (result = TrendState.BULLISH <-> enough /\ bullish) /\
  (result = TrendState.BEARISH <-> enough /\ ¬ bullish /\ bearish) /\
  (result = TrendState.RANGING <-> enough /\ ¬ bullish /\ ¬ bearish).
Proof.
  cbn zeta. unfold _determine_trend.
  pose proof (last_two_rising_spec lows) as Hrise.
  pose proof (last_two_falling_spec highs) as Hfall.
  destruct (match last_two lows with Some _ => _ | None => _ end);
    destruct (match last_two highs with Some _ => _ | None => _ end);
    destruct (Z.ltb_spec (Z.of_nat (length highs)) (min_swings_for_trend self));
    destruct (Z.ltb_spec (Z.of_nat (length lows)) (min_swings_for_trend self));
    destruct (Z.leb_spec (min_swings_for_trend self - 1) hh);
    destruct (Z.leb_spec (min_swings_for_trend self - 1) ll);
    cbn; intuition (first [done | lia]).
Qed.

(** X9. with [min_swings_for_trend >= 2] the class rule holds as written:
    a BULLISH answer means higher highs and higher lows (the last two
    highs rise and the last two lows rise), a BEARISH answer means lower
    lows and lower highs; the bullish and the bearish test cannot both
    succeed, so the order in which they are tried does not matter. *)
Theorem trend_rule_with_two_or_more self swings :
  2 <= min_swings_for_trend self ->
  swings ≠ [] ->
  let st := analyze_structure self swings in
  let highs := only HIGH swings in
  let lows := only LOW swings in
  let enough :=
    min_swings_for_trend self <= Z.of_nat (length highs) /\
    min_swings_for_trend self <= Z.of_nat (length lows) in
  let bullish :=
    min_swings_for_trend self - 1 <= higher_highs st /\ last_two_rising lows in
  let bearish :=
    min_swings_for_trend self - 1 <= lower_lows st /\ last_two_falling highs in
  ¬ (bullish /\ bearish) /\
  (trend st = TrendState.BULLISH <-> enough /\ bullish) /\
  (trend st = TrendState.BEARISH <-> enough /\ bearish) /\
  (trend st = TrendState.BULLISH -> last_two_rising highs /\ last_two_rising lows) /\
  (trend st = TrendState.BEARISH -> last_two_falling lows /\ last_two_falling highs).
Proof.
  intros Hm Hne. cbn zeta.
  rewrite analyze_structure_nonempty by done.
  cbn [trend higher_highs lower_lows].
  pose proof (streak_count_positive (fun p q => q <? p) (only HIGH swings)) as Hhh.
  pose proof (streak_count_positive (fun p q => p <? q) (only LOW swings)) as Hll.
  pose proof (determine_trend_iff self (only HIGH swings) (only LOW swings)
    (streak_count (fun p q => q <? p) (only HIGH swings))
    (streak_count (fun p q => p <? q) (only LOW swings))) as (_ & Hb & Hs & _).
  cbn zeta in Hb, Hs.
  set (hh := streak_count (fun p q => q <? p) (only HIGH swings)) in *.
  set (ll := streak_count (fun p q => p <? q) (only LOW swings)) in *.
  assert (min_swings_for_trend self - 1 <= hh -> last_two_rising (only HIGH swings))
    as Hup.
  { intros Hge. destruct (proj1 Hhh ltac:(lia)) as (pre & a & b & Heq & Hlt).
    exists pre, a, b. split; [done|]. by apply Z.ltb_lt. }
  assert (min_swings_for_trend self - 1 <= ll -> last_two_falling (only LOW swings))
    as Hdown.
  { intros Hge. destruct (proj1 Hll ltac:(lia)) as (pre & a & b & Heq & Hlt).
    exists pre, a, b. split; [done|]. by apply Z.ltb_lt. }
  assert (¬ ((min_swings_for_trend self - 1 <= hh /\ last_two_rising (only LOW swings))
             /\ (min_swings_for_trend self - 1 <= ll
                 /\ last_two_falling (only HIGH swings)))) as Hexcl.
  { intros [[Hh _] [_ Hf]]. eapply rising_not_falling; eauto. }
  split; [exact Hexcl|]. split; [exact Hb|]. split; [|split].
  - rewrite Hs. tauto.
  - rewrite Hb. tauto.
  - rewrite Hs. tauto.
Qed.

Lemma trend_rule_with_two_or_more_witness :
  last_two_rising (only HIGH rising_swings) /\
  last_two_rising (only LOW rising_swings).
Proof.
  destruct (trend_rule_with_two_or_more (mkStructureAnalyzer 2) rising_swings)
    as (_ & _ & _ & Hbull & _); [cbn; lia | done |].
  apply Hbull. reflexivity.
Defined.

(** * Further properties of the BOS detector *)

Lemma bos_emitted_sound self swings broken i bar e :
  e ∈ bos_emitted self swings broken i bar ->
  bos_event_sound self swings i bar e.
Proof.
  rewrite bos_emitted_eq. unfold bullish_break, bearish_break, bos_event_sound.
  intros He. apply elem_of_app in He as [He|He].
  - destruct (most_recent_unbroken HIGH _ _ _) as [s|] eqn:Hs;
      [|by apply elem_of_nil in He].
    apply most_recent_unbroken_eligible in Hs as (Hin & Ht & Hi & _).
    destruct (Z.ltb_spec (price s)
                (if BOSDetector.use_body self then close bar else high bar));
      [|by apply elem_of_nil in He].
    apply list_elem_of_singleton in He as ->. cbn. tauto.
  - destruct (most_recent_unbroken LOW _ _ _) as [s|] eqn:Hs;
      [|by apply elem_of_nil in He].
    apply most_recent_unbroken_eligible in Hs as (Hin & Ht & Hi & _).
    destruct (Z.ltb_spec
                (if BOSDetector.use_body self then close bar else low bar)
                (price s));
      [|by apply elem_of_nil in He].
    apply list_elem_of_singleton in He as ->. cbn. tauto.
Qed.

Lemma detect_bos_events self bars swings events :
  BOSDetector.detect_bos self bars swings = Ok events ->
  events = [] \/
  events = seq 0 (length bars) ≫= bos_emitted_at self swings bars.
Proof.
  unfold BOSDetector.detect_bos. destruct swings as [|s0 swings0] eqn:Hsw.
  { intros [= <-]. by left. }
  rewrite <- Hsw.
  destruct (Z.ltb_spec (Z.of_nat (length bars)) 2).
  { intros [= <-]. by left. }
  intros [= <-]. right.
  rewrite <- bos_events_concat. unfold bos_state_after. by rewrite firstn_all.
Qed.

Lemma elem_of_detect_bos self bars swings events e :
  BOSDetector.detect_bos self bars swings = Ok events ->
  e ∈ events ->
  exists (i : nat) bar,
    bars !! i = Some bar /\ bos_event_sound self swings (Z.of_nat i) bar e.
Proof.
  intros [->| ->]%detect_bos_events He; [by apply elem_of_nil in He|].
  apply list_elem_of_bind in He as (i & He & _).
  unfold bos_emitted_at in He.
  destruct (bars !! i) as [bar|] eqn:Hbar; [|by apply elem_of_nil in He].
  exists i, bar. split; [done|]. by eapply bos_emitted_sound.
Qed.


(** X10. every event [detect_bos] returns is a real break: it names a bar of
    the input, carries that bar's timestamp, names a swing of the input
    that was formed before that bar, and its break price -- the bar's close
    under [use_body], else its high (bullish) or low (bearish) -- lies
    strictly beyond the swing price, above a HIGH swing for a bullish event
    and below a LOW swing for a bearish one. *)
Theorem bos_events_are_real_breaks self bars swings events e :
  BOSDetector.detect_bos self bars swings = Ok events ->
  e ∈ events ->
  exists (i : nat) bar,
    bars !! i = Some bar /\ bos_event_sound self swings (Z.of_nat i) bar e.
Proof.
  intros Hrun He.
  apply detect_bos_events in Hrun as [->| ->]; [by apply elem_of_nil in He|].
  apply list_elem_of_bind in He as (i & He & _).
  unfold bos_emitted_at in He.
  destruct (bars !! i) as [bar|] eqn:Hbar; [|by apply elem_of_nil in He].
  exists i, bar. split; [done|]. by eapply bos_emitted_sound.
Qed.

Lemma bos_events_are_real_breaks_witness :
  exists (i : nat) bar,
    retire_bars !! i = Some bar /\
    bos_event_sound (BOSDetector.mk true) retire_swings (Z.of_nat i) bar
      (BOSEvent.mk BOSDirection.BULLISH retire_high 16 (mkBar 3 13 17 12 16) 3).
Proof.
  apply (bos_events_are_real_breaks (BOSDetector.mk true) retire_bars retire_swings
    [BOSEvent.mk BOSDirection.BULLISH retire_high 16 (mkBar 3 13 17 12 16) 3;
     BOSEvent.mk BOSDirection.BEARISH (mkSwing 4 12 LOW 3 1 1) 9
       (mkBar 5 14 14 8 9) 5]);
    [vm_compute; reflexivity | by_evaluation].
Defined.





Lemma StronglySorted_all_related {A} (R : relation A) (l : list A) :
  (forall x y, x ∈ l -> y ∈ l -> R x y) -> StronglySorted R l.
Proof.
  induction l as [|x l IH]; intros Hall; [constructor|].
  constructor.
  - apply IH. intros y z Hy Hz. apply Hall; by right.
  - apply Forall_forall. intros y Hy. apply Hall; [left|by right].
Qed.

Lemma elem_of_bos_emitted_at self swings bars n e :
  e ∈ bos_emitted_at self swings bars n ->
  exists bar, bars !! n = Some bar /\ bos_event_sound self swings (Z.of_nat n) bar e.
Proof.
  unfold bos_emitted_at. destruct (bars !! n) as [bar|]; [|by intros ?%elem_of_nil].
  intros He. exists bar. split; [done|]. by eapply bos_emitted_sound.
Qed.

Lemma bos_state_after_sorted self swings bars n :
  time_ordered bars ->
  StronglySorted bos_not_after (bos_state_after self swings bars n).1 /\
  forall e, e ∈ (bos_state_after self swings bars n).1 ->
    exists (i : nat) bar, (i < n)%nat /\ bars !! i = Some bar /\
      BOSEvent.timestamp e = timestamp_utc bar.
Proof.
  intros Hord%Sorted_StronglySorted; [|apply _].
  induction n as [|n [IHs IHe]].
  { split; [constructor|]. by intros e ?%elem_of_nil. }
  rewrite bos_state_after_step. cbn [fst]. split.
  - apply StronglySorted_app_2; [|done|].
    + intros e1 e2 (i & b1 & Hi & Hb1 & Ht1)%IHe
        (b2 & Hb2 & _ & Ht2 & _)%elem_of_bos_emitted_at.
      unfold bos_not_after. rewrite Ht1, Ht2. apply Z.lt_le_incl.
      by eapply (StronglySorted_lookup bar_before bars i n).
    + apply StronglySorted_all_related.
      intros e1 e2 (b1 & Hb1 & _ & Ht1 & _)%elem_of_bos_emitted_at
        (b2 & Hb2 & _ & Ht2 & _)%elem_of_bos_emitted_at.
      unfold bos_not_after. rewrite Ht1, Ht2. by simplify_eq.
  - intros e [He|He]%elem_of_app.
    + destruct (IHe e He) as (i & bar & Hi & Hbar & Ht).
      exists i, bar. split; [lia|done].
    + apply elem_of_bos_emitted_at in He as (bar & Hbar & _ & Ht & _).
      exists n, bar. split; [lia|done].
Qed.

(** X12. on time-ordered bars the events of [detect_bos] come out in time
    order: timestamps never decrease along the list. *)
Theorem bos_events_in_time_order self bars swings events :
  time_ordered bars ->
  BOSDetector.detect_bos self bars swings = Ok events ->
  StronglySorted bos_not_after events.
Proof.
  intros Hord [->| ->]%detect_bos_events; [constructor|].
  rewrite <- bos_events_concat. by apply bos_state_after_sorted.
Qed.

Lemma bos_scan_prefix self swings i bars st :
  st.1 `prefix_of` (BOSDetector.scan self swings i bars st).1.
Proof.
  revert i st. induction bars as [|bar bars IH]; intros i st; [done|].
  cbn [BOSDetector.scan]. etrans; [|apply IH].
  destruct st as [events broken]. rewrite bos_scan_bar_eq. cbn [fst].
  by apply prefix_app_r.
Qed.

Lemma detect_bos_app self bars more swings ev1 ev2 :
  BOSDetector.detect_bos self bars swings = Ok ev1 ->
  BOSDetector.detect_bos self (bars ++ more) swings = Ok ev2 ->
  ev1 `prefix_of` ev2.
Proof.
  unfold BOSDetector.detect_bos. destruct swings as [|s0 swings0] eqn:Hsw.
  { by intros [= <-] [= <-]. }
  rewrite <- Hsw.
  destruct (Z.ltb_spec (Z.of_nat (length bars)) 2).
  { intros [= <-] _. apply prefix_nil. }
  destruct (Z.ltb_spec (Z.of_nat (length (bars ++ more))) 2) as [Hshort|_].
  { rewrite length_app in Hshort. lia. }
  intros [= <-] [= <-]. rewrite bos_scan_app. apply bos_scan_prefix.
Qed.

(** * Further properties of the CHoCH detector *)

Lemma choch_scan_bar_eq self swings trend_state i bar events broken :
  CHoCHDetector.scan_bar self swings trend_state i bar (events, broken)
  = (events ++ choch_emitted self swings trend_state broken i bar,
     broken ∪ list_to_set
       (choch_broken_index <$> choch_emitted self swings trend_state broken i bar)).
Proof.
  unfold choch_emitted, CHoCHDetector.scan_bar. cbn [snd fst].
  destruct (relevant_swings swings broken i) as [|r rs] eqn:Hrel.
  { cbn. rewrite app_nil_r. f_equal. set_unions. }
  destruct trend_state;
    try destruct (last (only LOW _)) as [sl|];
    try destruct (last (only HIGH _)) as [sh|];
    repeat match goal with
      | |- context [?a <? ?b] => destruct (a <? b); cbn
      end;
    rewrite ?app_nil_r; f_equal; set_unions.
Qed.

Lemma choch_scan_app self swings trend_state i l1 l2 st :
  CHoCHDetector.scan self swings trend_state i (l1 ++ l2) st
  = CHoCHDetector.scan self swings trend_state (i + Z.of_nat (length l1)) l2
      (CHoCHDetector.scan self swings trend_state i l1 st).
Proof.
  revert i st. induction l1 as [|b l1 IH]; intros i st;
    cbn [CHoCHDetector.scan app length].
  - by rewrite Z.add_0_r.
  - rewrite IH. f_equal. lia.
Qed.

Lemma choch_scan_prefix self swings trend_state i bars st :
  st.1 `prefix_of` (CHoCHDetector.scan self swings trend_state i bars st).1.
Proof.
  revert i st. induction bars as [|bar bars IH]; intros i st; [done|].
  cbn [CHoCHDetector.scan]. etrans; [|apply IH].
  destruct st as [events broken]. rewrite choch_scan_bar_eq. cbn [fst].
  by apply prefix_app_r.
Qed.

Lemma choch_state_after_step self swings trend_state bars n :
  choch_state_after self swings trend_state bars (S n)
  = ((choch_state_after self swings trend_state bars n).1
       ++ choch_emitted_at self swings trend_state bars n,
     (choch_state_after self swings trend_state bars n).2
       ∪ list_to_set
           (choch_broken_index <$> choch_emitted_at self swings trend_state bars n)).
Proof.
  unfold choch_emitted_at, choch_state_after.
  destruct (bars !! n) as [bar|] eqn:Hn.
  - rewrite (take_S_r _ _ _ Hn), choch_scan_app.
    rewrite length_take_le by (apply lookup_lt_Some in Hn; lia).
    cbn [CHoCHDetector.scan]. rewrite Z.add_0_l.
    destruct (CHoCHDetector.scan self swings trend_state 0 (take n bars) ([], ∅))
      as [events broken].
    apply choch_scan_bar_eq.
  - apply lookup_ge_None in Hn. rewrite !take_ge by lia.
    destruct (CHoCHDetector.scan self swings trend_state 0 bars ([], ∅))
      as [events broken].
    cbn. rewrite app_nil_r. f_equal. set_unions.
Qed.

Lemma choch_events_concat self swings trend_state bars n :
  (choch_state_after self swings trend_state bars n).1
  = seq 0 n ≫= choch_emitted_at self swings trend_state bars.
Proof.
  induction n as [|n IH]; [done|].
  rewrite choch_state_after_step, seq_S, bind_app, IH. cbn.
  by rewrite app_nil_r.
Qed.

Lemma detect_choch_events self bars swings trend_state events :
  CHoCHDetector.detect_choch self bars swings trend_state = Ok events ->
  events = seq 0 (length bars) ≫= choch_emitted_at self swings trend_state bars
  \/ (events = [] /\ counter_trend_type trend_state = None).
Proof.
  unfold CHoCHDetector.detect_choch.
  destruct trend_state; intros [= <-]; try (by right); left;
    rewrite <- choch_events_concat; unfold choch_state_after;
    by rewrite firstn_all.
Qed.

Lemma choch_emitted_sound self swings trend_state broken i bar e :
  e ∈ choch_emitted self swings trend_state broken i bar ->
  choch_event_sound self swings trend_state i bar e.
Proof.
  unfold choch_emitted, CHoCHDetector.scan_bar, choch_event_sound. cbn [fst snd].
  destruct (relevant_swings swings broken i) as [|r rs] eqn:Hrel;
    [by intros ?%elem_of_nil|].
  rewrite <- Hrel. clear Hrel.
  destruct trend_state; try (by intros ?%elem_of_nil).
  - destruct (last (only LOW _)) as [s|] eqn:Hs; [|by intros ?%elem_of_nil].
    rewrite most_recent_unbroken_relevant in Hs.
    apply most_recent_unbroken_eligible in Hs as (Hin & Ht & Hi & _).
    destruct (Z.ltb_spec
                (if CHoCHDetector.use_body self then close bar else low bar)
                (price s)); [|by intros ?%elem_of_nil].
    cbn. intros ->%list_elem_of_singleton. cbn. tauto.
  - destruct (last (only HIGH _)) as [s|] eqn:Hs; [|by intros ?%elem_of_nil].
    rewrite most_recent_unbroken_relevant in Hs.
    apply most_recent_unbroken_eligible in Hs as (Hin & Ht & Hi & _).
    destruct (Z.ltb_spec (price s)
                (if CHoCHDetector.use_body self then close bar else high bar));
      [|by intros ?%elem_of_nil].
    cbn. intros ->%list_elem_of_singleton. cbn. tauto.
Qed.

(** X13. every event [detect_choch] returns is a break against the trend it
    was given: it names a bar of the input and carries its timestamp, its
    [prior_trend] is the given trend, it names a swing of the input formed
    before that bar, and under BULLISH it is a BULLISH_TO_BEARISH event
    whose break price (close, else low) is strictly below a LOW swing,
    under BEARISH a BEARISH_TO_BULLISH event whose break price (close, else
    high) is strictly above a HIGH swing. Under RANGING or UNKNOWN there
    is no event. *)
Theorem choch_events_break_against_the_trend self bars swings trend_state events e :
  CHoCHDetector.detect_choch self bars swings trend_state = Ok events ->
  e ∈ events ->
  exists (i : nat) bar,
    bars !! i = Some bar /\
    choch_event_sound self swings trend_state (Z.of_nat i) bar e.
Proof.
  intros [->|[-> _]]%detect_choch_events He; [|by apply elem_of_nil in He].
  apply list_elem_of_bind in He as (i & He & _).
  unfold choch_emitted_at in He.
  destruct (bars !! i) as [bar|] eqn:Hbar; [|by apply elem_of_nil in He].
  exists i, bar. split; [done|]. by eapply choch_emitted_sound.
Qed.

Lemma choch_events_break_against_the_trend_witness :
  exists (i : nat) bar,
    shared_bars !! i = Some bar /\
    choch_event_sound (CHoCHDetector.mk true) [shared_low] TrendState.BULLISH
      (Z.of_nat i) bar
      (CHoCHEvent.mk BULLISH_TO_BEARISH shared_low 9 (mkBar 3 12 12 8 9)
         TrendState.BULLISH 3).
Proof.
  apply (choch_events_break_against_the_trend (CHoCHDetector.mk true) shared_bars
    [shared_low] TrendState.BULLISH
    [CHoCHEvent.mk BULLISH_TO_BEARISH shared_low 9 (mkBar 3 12 12 8 9)
       TrendState.BULLISH 3]);
    [vm_compute; reflexivity | by_evaluation].
Defined.

(** X14. events already reported do not change when more bars arrive: the
    events of [detect_bos], and of [detect_choch], for a bar sequence are
    the head of the events for any extension of it. *)
Theorem events_survive_new_bars :
  (forall bos bars more swings ev1 ev2,
     BOSDetector.detect_bos bos bars swings = Ok ev1 ->
     BOSDetector.detect_bos bos (bars ++ more) swings = Ok ev2 ->
     ev1 `prefix_of` ev2) /\
  (forall ch bars more swings trend_state ev1 ev2,
     CHoCHDetector.detect_choch ch bars swings trend_state = Ok ev1 ->
     CHoCHDetector.detect_choch ch (bars ++ more) swings trend_state = Ok ev2 ->
     ev1 `prefix_of` ev2).
Proof.
  split; [apply detect_bos_app|].
  intros ch bars more swings trend_state ev1 ev2.
  unfold CHoCHDetector.detect_choch.
  destruct trend_state; intros [= <-] [= <-]; try done;
    rewrite choch_scan_app; apply choch_scan_prefix.
Qed.

Lemma events_survive_new_bars_witness :
  [BOSEvent.mk BOSDirection.BULLISH retire_high 16 (mkBar 3 13 17 12 16) 3]
  `prefix_of`
  [BOSEvent.mk BOSDirection.BULLISH retire_high 16 (mkBar 3 13 17 12 16) 3;
   BOSEvent.mk BOSDirection.BEARISH (mkSwing 4 12 LOW 3 1 1) 9 (mkBar 5 14 14 8 9) 5].
Proof.
  apply (proj1 events_survive_new_bars (BOSDetector.mk true)
           (take 4 retire_bars) (drop 4 retire_bars) retire_swings);
    vm_compute; reflexivity.
Defined.

Lemma relevant_swings_only t swings broken i :
  relevant_swings (only t swings) broken i = only t (relevant_swings swings broken i).
Proof.
  unfold relevant_swings, only. rewrite !list_filter_filter.
  apply list_filter_iff. intros s. tauto.
Qed.

Lemma only_only t l : only t (only t l) = only t l.
Proof. unfold only. by apply list_filter_filter_l. Qed.

Lemma only_other t t' l : t ≠ t' -> only t (only t' l) = [].
Proof.
  intros Hne. unfold only. rewrite list_filter_filter.
  induction l as [|s l IH]; [done|].
  rewrite filter_cons_False; [done|]. intros [? ?]. congruence.
Qed.

Lemma choch_scan_bar_only self swings trend_state t i bar st :
  counter_trend_type trend_state = Some t ->
  CHoCHDetector.scan_bar self (only t swings) trend_state i bar st
  = CHoCHDetector.scan_bar self swings trend_state i bar st.
Proof.
  intros Ht. unfold CHoCHDetector.scan_bar. rewrite relevant_swings_only.
  destruct (relevant_swings swings st.2 i) as [|r rs]; [done|].
  destruct trend_state; try done; injection Ht as <-; rewrite only_only;
    by destruct (only _ (r :: rs)).
Qed.

Lemma choch_scan_only self swings trend_state t i bars st :
  counter_trend_type trend_state = Some t ->
  CHoCHDetector.scan self (only t swings) trend_state i bars st
  = CHoCHDetector.scan self swings trend_state i bars st.
Proof.
  intros Ht. revert i st. induction bars as [|bar bars IH]; intros i st; [done|].
  cbn [CHoCHDetector.scan]. by rewrite choch_scan_bar_only, IH.
Qed.

Lemma detect_choch_only self bars swings trend_state t :
  counter_trend_type trend_state = Some t ->
  CHoCHDetector.detect_choch self bars (only t swings) trend_state
  = CHoCHDetector.detect_choch self bars swings trend_state.
Proof.
  intros Ht. unfold CHoCHDetector.detect_choch.
  destruct trend_state; try done; by rewrite (choch_scan_only _ _ _ t).
Qed.

(** X15. a CHoCH scan reads the swings of one type only -- the lows under a
    BULLISH trend, the highs under a BEARISH trend: removing every swing
    of the other type from the input changes nothing. *)
Theorem choch_reads_one_swing_type self bars swings trend_state t :
  counter_trend_type trend_state = Some t ->
  CHoCHDetector.detect_choch self bars (only t swings) trend_state
  = CHoCHDetector.detect_choch self bars swings trend_state.
Proof.
  intros Ht. unfold CHoCHDetector.detect_choch.
  destruct trend_state; try done; injection Ht as <-;
    f_equal; f_equal; by apply choch_scan_only.
Qed.

Lemma choch_reads_one_swing_type_witness :
  CHoCHDetector.detect_choch (CHoCHDetector.mk true) retire_bars
    (only LOW retire_swings) TrendState.BULLISH
  = CHoCHDetector.detect_choch (CHoCHDetector.mk true) retire_bars
      retire_swings TrendState.BULLISH.
Proof.
  apply (choch_reads_one_swing_type (CHoCHDetector.mk true) retire_bars
           retire_swings TrendState.BULLISH LOW).
  reflexivity.
Defined.

Lemma most_recent_unbroken_other t t' swings broken i :
  t ≠ t' -> most_recent_unbroken t (only t' swings) broken i = None.
Proof.
  intros Hne. rewrite <- most_recent_unbroken_relevant, relevant_swings_only.
  by rewrite only_other.
Qed.

Lemma choch_emitted_breaks ch swings trend_state t broken i bar :
  counter_trend_type trend_state = Some t ->
  choch_break <$> choch_emitted ch (only t swings) trend_state broken i bar
  = bos_break <$> bos_emitted (BOSDetector.mk (CHoCHDetector.use_body ch))
                    (only t swings) broken i bar
  /\ Forall (fun e => BOSEvent.direction e = direction_against t)
       (bos_emitted (BOSDetector.mk (CHoCHDetector.use_body ch))
          (only t swings) broken i bar).
Proof.
  intros Ht. rewrite bos_emitted_eq.
  unfold choch_emitted, CHoCHDetector.scan_bar, bullish_break, bearish_break.
  cbn [fst snd BOSDetector.use_body].
  destruct trend_state; try done; injection Ht as <-.
  - rewrite (most_recent_unbroken_other HIGH LOW) by done.
    rewrite <- most_recent_unbroken_relevant.
    destruct (relevant_swings (only LOW swings) broken i) as [|r rs] eqn:Hrel;
      [by split|].
    rewrite <- Hrel. destruct (last (only LOW _)) as [s|]; [|by split].
    destruct (_ <? _); cbn; split; by repeat constructor.
  - rewrite (most_recent_unbroken_other LOW HIGH) by done.
    rewrite <- most_recent_unbroken_relevant.
    destruct (relevant_swings (only HIGH swings) broken i) as [|r rs] eqn:Hrel;
      [by split|].
    rewrite <- Hrel. destruct (last (only HIGH _)) as [s|]; [|by split].
    destruct (_ <? _); cbn; split; by repeat constructor.
Qed.

Lemma broken_index_of_break (evc : list CHoCHEvent.t) (evb : list BOSEvent.t) :
  choch_break <$> evc = bos_break <$> evb ->
  choch_broken_index <$> evc = bos_broken_index <$> evb.
Proof.
  intros Heq.
  apply (f_equal (fmap (fun b : SwingPoint * Z * MarketBar * Z =>
                          bar_index b.1.1.1))) in Heq.
  by rewrite <- !list_fmap_compose in Heq.
Qed.

Lemma choch_scan_simulates_bos ch swings trend_state t i bars evc evb broken :
  counter_trend_type trend_state = Some t ->
  choch_break <$> evc = bos_break <$> evb ->
  Forall (fun e => BOSEvent.direction e = direction_against t) evb ->
  let stc := CHoCHDetector.scan ch (only t swings) trend_state i bars (evc, broken) in
  let stb := BOSDetector.scan (BOSDetector.mk (CHoCHDetector.use_body ch))
               (only t swings) i bars (evb, broken) in
  choch_break <$> stc.1 = bos_break <$> stb.1 /\
  Forall (fun e => BOSEvent.direction e = direction_against t) stb.1.
Proof.
  intros Ht. revert i evc evb broken.
  induction bars as [|bar bars IH]; intros i evc evb broken Heq Hdir; [done|].
  cbn [CHoCHDetector.scan BOSDetector.scan].
  rewrite choch_scan_bar_eq, bos_scan_bar_eq.
  destruct (choch_emitted_breaks ch swings trend_state t broken i bar Ht)
    as [Hem Hemdir].
  rewrite (broken_index_of_break _ _ Hem).
  apply IH.
  - by rewrite !fmap_app, Heq, Hem.
  - by apply Forall_app.
Qed.

Lemma choch_no_swings self trend_state bars :
  CHoCHDetector.detect_choch self bars [] trend_state = Ok [].
Proof.
  destruct (CHoCHDetector.detect_choch self bars [] trend_state) as [events|e] eqn:Hrun.
  - f_equal. apply elem_of_nil_inv. intros e He.
    apply detect_choch_events in Hrun as [->|[-> _]]; [|by apply elem_of_nil in He].
    apply list_elem_of_bind in He as (i & He & _).
    unfold choch_emitted_at in He. destruct (bars !! i); [|by apply elem_of_nil in He].
    apply choch_emitted_sound in He as (_ & _ & _ & Hin & _).
    by apply elem_of_nil in Hin.
  - unfold CHoCHDetector.detect_choch in Hrun. by destruct trend_state.
Qed.

(** X16. what [detect_choch] finds under a trend is what [detect_bos] finds
    on the swings of the counter-trend type alone: given at least two bars,
    the breaks recorded by the CHoCH events (swing, break price, bar,
    timestamp, in order) are those of the BOS events computed with the same
    [use_body] on the lows only (BULLISH trend, all bearish breaks) or on
    the highs only (BEARISH trend, all bullish breaks). *)
Theorem choch_finds_the_bos_breaks_of_one_type ch bars swings trend_state t evc :
  (2 <= length bars)%nat ->
  counter_trend_type trend_state = Some t ->
  CHoCHDetector.detect_choch ch bars swings trend_state = Ok evc ->
  exists evb,
    BOSDetector.detect_bos (BOSDetector.mk (CHoCHDetector.use_body ch)) bars
      (only t swings) = Ok evb /\
    choch_break <$> evc = bos_break <$> evb /\
    Forall (fun e => BOSEvent.direction e = direction_against t) evb.
Proof.
  intros Hlen Ht. rewrite <- (detect_choch_only ch bars swings trend_state t Ht).
  destruct (only t swings) as [|s0 swings0] eqn:Hsw.
  { rewrite choch_no_swings. intros [= <-]. by exists []. }
  rewrite <- Hsw.
  assert (BOSDetector.detect_bos (BOSDetector.mk (CHoCHDetector.use_body ch)) bars
            (only t swings)
          = Ok (BOSDetector.scan (BOSDetector.mk (CHoCHDetector.use_body ch))
                  (only t swings) 0 bars ([], ∅)).1) as ->.
  { unfold BOSDetector.detect_bos. rewrite Hsw.
    by destruct (Z.ltb_spec (Z.of_nat (length bars)) 2); [lia|]. }
  assert (CHoCHDetector.detect_choch ch bars (only t swings) trend_state
          = Ok (CHoCHDetector.scan ch (only t swings) trend_state 0 bars ([], ∅)).1)
    as -> by (by destruct trend_state).
  intros [= <-]. eexists. split; [done|].
  by apply choch_scan_simulates_bos.
Qed.

Lemma choch_finds_the_bos_breaks_of_one_type_witness :
  exists evb,
    BOSDetector.detect_bos (BOSDetector.mk true) retire_bars
      (only LOW retire_swings) = Ok evb /\
    choch_break <$>
      [CHoCHEvent.mk BULLISH_TO_BEARISH (mkSwing 4 12 LOW 3 1 1) 9
         (mkBar 5 14 14 8 9) TrendState.BULLISH 5;
       CHoCHEvent.mk BULLISH_TO_BEARISH retire_low 8 (mkBar 6 9 9 7 8)
         TrendState.BULLISH 6]
    = bos_break <$> evb /\
    Forall (fun e => BOSEvent.direction e = direction_against LOW) evb.
Proof.
  apply (choch_finds_the_bos_breaks_of_one_type (CHoCHDetector.mk true)
           retire_bars retire_swings TrendState.BULLISH LOW);
    [cbn; lia | reflexivity | vm_compute; reflexivity].
Defined.

(** * The detectors together *)

Lemma time_ordered_lookup_inj bars (i j : nat) bar :
  time_ordered bars -> bars !! i = Some bar -> bars !! j = Some bar -> i = j.
Proof.
  intros Hord%Sorted_StronglySorted Hi Hj; [|apply _].
  destruct (Nat.lt_trichotomy i j) as [Hlt|[->|Hlt]]; [|done|].
  - pose proof (StronglySorted_lookup bar_before bars i j bar bar Hord Hi Hj Hlt)
      as Hbefore. unfold bar_before in Hbefore. lia.
  - pose proof (StronglySorted_lookup bar_before bars j i bar bar Hord Hj Hi Hlt)
      as Hbefore. unfold bar_before in Hbefore. lia.
Qed.

(** X17. run on the same bars, [detect_bos] never breaks a swing found by
    [detect_swings] inside the window that confirmed it: the bar of every
    event lies more than [lookback] bars after the swing it breaks. *)
Theorem bos_breaks_come_after_confirmation self bos bars self' swings events e
    (i : nat) :
  1 <= lookback self ->
  Forall bar_invariant bars ->
  detect_swings bars self = (self', Ok swings) ->
  BOSDetector.detect_bos bos bars swings = Ok events ->
  e ∈ events ->
  bars !! i = Some (BOSEvent.break_bar e) ->
  bar_index (BOSEvent.broken_swing e) + lookback self < Z.of_nat i.
Proof.
  intros Hlb Hinv Hswings Hbos He Hi.
  apply detect_swings_returns in Hswings as (Hord & -> & _); [|done].
  destruct (elem_of_detect_bos _ _ _ _ _ Hbos He)
    as (i0 & bar & Hbar & Hbb & _ & Hin & Hlt & Hdir).
  rewrite Hbb in Hi.
  assert (i = i0) as -> by (by eapply time_ordered_lookup_inj).
  apply elem_of_expected_swings in Hin as (Hrange & Hsw & Heq).
  set (s := BOSEvent.broken_swing e) in *.
  destruct (Z.lt_ge_cases (bar_index s + lookback self) (Z.of_nat i0))
    as [|Hnear]; [done|exfalso].
  apply is_swing_spec in Hsw as [_ Hright].
  specialize (Hright (Z.of_nat i0) ltac:(lia)).
  assert (bar_at bars (Z.of_nat i0) = bar) as Hat
    by (apply bar_at_lookup; by rewrite Nat2Z.id).
  rewrite Hat in Hright.
  assert (price s = extreme (swing_type s) (bar_at bars (bar_index s))) as Hp
    by (by rewrite Heq at 1).
  rewrite <- Hp in Hright.
  assert (bar_invariant bar) as Hb.
  { rewrite Forall_forall in Hinv. apply Hinv. by eapply list_elem_of_lookup_2. }
  unfold bar_invariant in Hb.
  destruct (BOSEvent.direction e); destruct Hdir as (Ht & Hbp & Hbreak);
    rewrite Ht in Hright; cbn in Hright; rewrite Hbp in Hbreak;
    destruct (BOSDetector.use_body bos); lia.
Qed.

(** ** Worked instances of the further properties *)

Lemma detected_swing_describes_a_confirmed_bar_witness :
  5 <= 5 < Z.of_nat (length peak_bars) - 5 /\
  5 = 5 /\
  exists b, peak_bars !! Z.to_nat 5 = Some b /\
    6 = timestamp_utc b /\ 20 = high b /\ 0 < 20.
Proof.
  apply (detected_swing_describes_a_confirmed_bar peak_bars detector5
           (mkSwingDetector 5 1 1 0) [mkSwing 6 20 HIGH 5 5 10]
           (mkSwing 6 20 HIGH 5 5 10));
    [cbn; lia | vm_compute; reflexivity | by_evaluation].
Defined.


Lemma bos_events_in_time_order_witness :
  StronglySorted bos_not_after
    [BOSEvent.mk BOSDirection.BULLISH retire_high 16 (mkBar 3 13 17 12 16) 3;
     BOSEvent.mk BOSDirection.BEARISH (mkSwing 4 12 LOW 3 1 1) 9
       (mkBar 5 14 14 8 9) 5].
Proof.
  apply (bos_events_in_time_order (BOSDetector.mk true) retire_bars retire_swings);
    [by_evaluation | vm_compute; reflexivity].
Defined.

(** The second peak of [twin_peak_bars] takes out the first one with its
    wick, at bar 11: six bars after the swing at bar 5. *)
Lemma bos_breaks_come_after_confirmation_witness : 5 + 5 < Z.of_nat 11.
Proof.
  apply (bos_breaks_come_after_confirmation detector5 (BOSDetector.mk false)
    twin_peak_bars (mkSwingDetector 5 3 2 1)
    [mkSwing 6 20 HIGH 5 5 10; mkSwing 11 9 LOW 10 5 10; mkSwing 12 21 HIGH 11 5 10]
    [BOSEvent.mk BOSDirection.BULLISH (mkSwing 6 20 HIGH 5 5 10) 21
       (mkBar 12 11 21 10 12) 12]
    (BOSEvent.mk BOSDirection.BULLISH (mkSwing 6 20 HIGH 5 5 10) 21
       (mkBar 12 11 21 10 12) 12)
    11);
    [cbn; lia | by_evaluation | vm_compute; reflexivity | vm_compute; reflexivity
    | by_evaluation | reflexivity].
Defined.
